(** * SafeDocs: the rule-based document analyzer and chat responder of [main.py]

    A shallow embedding of [AIAnalyzer.analyze_document] and of the
    [/api/chat] handler [chat_with_document], with the properties the
    specification states about them.

    Python values are modelled as the code has them:
    - a [str] is a sequence of Unicode code points ([list N]); [len] counts
      code points, slices and [find] work on code-point indices ([Z]);
    - a finding is a Python [dict] with string keys and string values, kept
      as an association list in insertion order; [d[k]] can raise [KeyError];
    - [documents_storage] and [chat_history] are dictionaries keyed by the
      document id ([gmap]);
    - an exception is a value of [exn], carried by the [result] monad.

    [str.lower] and [str.upper] are functions of the Python runtime (they
    follow the Unicode case tables); the analyzer is embedded over an
    arbitrary pair of such functions, so that every theorem holds whatever
    the tables are.  [uuid.uuid4()] and [datetime.now().isoformat()] are
    read from the environment and passed in as arguments. *)

From Stdlib Require Import ZArith NArith List String Ascii Lia Bool.
From Stdlib Require Import Numbers.DecimalString.
From stdpp Require Import base option list gmap.

Local Open Scope Z_scope.
Local Open Scope list_scope.

(** ** Python strings *)

(** Source literals are written in UTF-8; [U] decodes them to code points. *)
Fixpoint utf8 (bs : list N) : list N :=
  match bs with
  | [] => []
  | b0 :: t0 =>
    if (b0 <? 128)%N then b0 :: utf8 t0
    else match t0 with
    | [] => []
    | b1 :: t1 =>
      if (b0 <? 224)%N then ((b0 mod 32) * 64 + b1 mod 64)%N :: utf8 t1
      else match t1 with
      | [] => []
      | b2 :: t2 =>
        if (b0 <? 240)%N
        then ((b0 mod 16) * 4096 + (b1 mod 64) * 64 + b2 mod 64)%N :: utf8 t2
        else match t2 with
        | [] => []
        | b3 :: t3 =>
          ((b0 mod 8) * 262144 + (b1 mod 64) * 4096
           + (b2 mod 64) * 64 + b3 mod 64)%N :: utf8 t3
        end
      end
    end
  end.

Definition U (s : string) : list N :=
  utf8 (List.map N_of_ascii (list_ascii_of_string s)).

Definition NL : list N := [10%N].

(** [len(s)] *)
Definition len {A} (s : list A) : Z := Z.of_nat (length s).

(** [s.startswith(p)] *)
Fixpoint is_prefix (p s : list N) : bool :=
  match p, s with
  | [], _ => true
  | _ :: _, [] => false
  | a :: p', b :: s' => (a =? b)%N && is_prefix p' s'
  end.

(** [sub in s] *)
Fixpoint str_in (sub s : list N) : bool :=
  if is_prefix sub s then true
  else match s with
       | [] => false
       | _ :: s' => str_in sub s'
       end.

(** [s.find(sub)]: the lowest index where [sub] occurs, [-1] when it does
    not occur. *)
Fixpoint find_from (sub s : list N) (i : Z) : Z :=
  if is_prefix sub s then i
  else match s with
       | [] => -1
       | _ :: s' => find_from sub s' (i + 1)
       end.

Definition find (sub s : list N) : Z := find_from sub s 0.

(** [s[a:b]], with the index adjustment of Python slices (negative indices
    count from the end, everything is clamped to [0, len(s)]). *)
Definition adjust_index (n i : Z) : Z :=
  if i <? 0 then Z.max 0 (i + n) else Z.min i n.

Definition slice (s : list N) (a b : Z) : list N :=
  let lo := adjust_index (len s) a in
  let hi := adjust_index (len s) b in
  take (Z.to_nat (hi - lo)) (drop (Z.to_nat lo) s).

(** [c.isspace()] for one code point: the white-space table of CPython
    ([_PyUnicode_IsWhitespace]). *)
Definition isspace (c : N) : bool :=
  ((9 <=? c) && (c <=? 13) || (28 <=? c) && (c <=? 32)
   || (c =? 133) || (c =? 160) || (c =? 5760)
   || (8192 <=? c) && (c <=? 8202)
   || (c =? 8232) || (c =? 8233) || (c =? 8239) || (c =? 8287)
   || (c =? 12288))%N.

Fixpoint lstrip (s : list N) : list N :=
  match s with
  | [] => []
  | c :: s' => if isspace c then lstrip s' else s
  end.

Definition rstrip (s : list N) : list N := rev (lstrip (rev s)).

(** [s.strip()] *)
Definition strip (s : list N) : list N := rstrip (lstrip s).

(** [sep.join(parts)] *)
Fixpoint join (sep : list N) (parts : list (list N)) : list N :=
  match parts with
  | [] => []
  | [p] => p
  | p :: rest => p ++ sep ++ join sep rest
  end.

(** [str(n)] for a length *)
Definition str_of_nat (n : nat) : list N :=
  U (NilZero.string_of_uint (Nat.to_uint n)).

(** [any(w in s for w in words)] *)
Definition any_in (words : list (list N)) (s : list N) : bool :=
  existsb (fun w => str_in w s) words.

(** ** Exceptions *)

Inductive exn : Type :=
  | KeyError (key : list N)
  | HTTPException (status_code : Z) (detail : list N).

Inductive result (A : Type) : Type :=
  | Ok (a : A)
  | Raise (e : exn).
Arguments Ok {A} a.
Arguments Raise {A} e.

#[global] Instance result_ret : MRet result := fun A a => Ok a.

#[global] Instance result_bind : MBind result := fun A B k m =>
  match m with
  | Ok a => k a
  | Raise e => Raise e
  end.

Definition returns {A} (m : result A) : Prop := exists a, m = Ok a.

(** [[f(x) for x in xs]] where [f] may raise *)
Fixpoint map_result {A B} (f : A -> result B) (xs : list A) : result (list B) :=
  match xs with
  | [] => Ok []
  | x :: rest => y ← f x; ys ← map_result f rest; Ok (y :: ys)
  end.

(** ** Python dictionaries with string keys and values *)

Definition str_eqb (a b : list N) : bool := bool_decide (a = b).

(** [d.get(k)] *)
Fixpoint dict_get (d : list (list N * list N)) (k : list N) : option (list N) :=
  match d with
  | [] => None
  | (k', v) :: d' => if str_eqb k' k then Some v else dict_get d' k
  end.

(** [d[k]] *)
Definition getitem (d : list (list N * list N)) (k : list N) : result (list N) :=
  match dict_get d k with
  | Some v => Ok v
  | None => Raise (KeyError k)
  end.

(** ** Data model *)

Record DocumentAnalysis : Type := {
  document_id : list N;
  filename : list N;
  text_content : list N;
  risks : list (list (list N * list N));
  benefits : list (list (list N * list N));
  unclear_terms : list (list (list N * list N));
  overall_rating : list N;
  summary : list N;
  processed_at : list N
}.

Module ChatMessage.
Record t : Type := { document_id : list N; question : list N }.
End ChatMessage.

Module ChatResponse.
Record t : Type := { answer : list N; document_id : list N }.
End ChatResponse.

(** The module-level stores [documents_storage] and [chat_history]. *)
Record Store : Type := {
  documents_storage : gmap (list N) DocumentAnalysis;
  chat_history : gmap (list N) (list (list (list N * list N)))
}.

Definition empty_store : Store :=
  {| documents_storage := ∅; chat_history := ∅ |}.

(** ** The keyword tables of [analyze_document], in declaration order *)

Definition risk_patterns : list (list N * list (list N)) :=
  [ (U "штрафные санкции",
      [U "штраф"; U "пеня"; U "неустойка"; U "санкции"]);
    (U "односторонние условия",
      [U "односторонн"; U "в любое время"; U "по своему усмотрению";
       U "вправе расторгнуть"]);
    (U "высокая ответственность",
      [U "полная ответственность"; U "возмещение всех";
       U "солидарная ответственность"]);
    (U "неопределенные сроки",
      [U "разумный срок"; U "в кратчайшие сроки"; U "незамедлительно";
       U "без промедления"]);
    (U "финансовые риски",
      [U "за свой счет"; U "без возмещения"; U "безвозмездно";
       U "убытки покупателя"]) ].

Definition benefit_patterns : list (list N * list (list N)) :=
  [ (U "гарантии", [U "гарантия"; U "гарантирует"; U "обязуется"]);
    (U "защита интересов", [U "страхование"; U "компенсация"; U "возмещение"]);
    (U "гибкие условия",
      [U "по согласованию"; U "возможность изменения"; U "право выбора"]);
    (U "возврат средств",
      [U "возврат"; U "возмещение платежа"; U "компенсация расходов"]) ].

Definition unclear_patterns : list (list N) :=
  [ U "в установленном порядке"; U "соответствующие меры";
    U "надлежащим образом"; U "разумный срок"; U "существенные нарушения";
    U "форс-мажорные обстоятельства"; U "иные обстоятельства";
    U "по обоюдному согласию"; U "в исключительных случаях" ].

(** The fragments that make a risk keyword severe (line 156). *)
Definition severe_fragments : list (list N) :=
  [U "штраф"; U "полная ответственность"].

Definition RISKY : list N := U "рискован".
Definition NEEDS_ATTENTION : list N := U "требует внимания".
Definition SAFE : list N := U "безопасен".
Definition HIGH : list N := U "высокий".
Definition MEDIUM : list N := U "средний".

(** ** AIAnalyzer.analyze_document *)

(** Lines 147-150 (and again 173-176, 196-199): the context window around
    the first occurrence of the keyword in the lower-cased text, cut out of
    the original text. *)
Definition context_window (text text_lower keyword : list N) : list N :=
  let start_pos := find keyword text_lower in
  let context_start := Z.max 0 (start_pos - 100) in
  let context_end := Z.min (len text) (start_pos + 200) in
  strip (slice text context_start context_end).

(** Lines 152-158. *)
Definition risk_finding (text text_lower risk_type keyword : list N)
  : list (list N * list N) :=
  [ (U "type", risk_type);
    (U "keyword", keyword);
    (U "context", context_window text text_lower keyword);
    (U "severity",
      if any_in severe_fragments keyword then HIGH else MEDIUM);
    (U "recommendation",
      U "Рекомендуется пересмотреть условия, связанные с '" ++ keyword
        ++ U "'") ].

(** Lines 178-183. *)
Definition benefit_finding (text text_lower benefit_type keyword : list N)
  : list (list N * list N) :=
  [ (U "type", benefit_type);
    (U "keyword", keyword);
    (U "context", context_window text text_lower keyword);
    (U "value",
      if str_in (U "гарантия") keyword then U "высокая" else U "средняя") ].

(** Lines 201-206. *)
Definition unclear_finding (text text_lower pattern : list N)
  : list (list N * list N) :=
  [ (U "phrase", pattern);
    (U "context", context_window text text_lower pattern);
    (U "explanation",
      U "Фраза '" ++ pattern ++ U "' требует уточнения конкретных условий");
    (U "suggestion",
      U "Рекомендуется запросить детализацию данного пункта") ].

(** The inner loop [for keyword in keywords: if keyword in text_lower: ...
    append(...); break]: the first keyword that occurs is recorded and the
    loop is left. *)
Fixpoint scan_keywords {A} (mk : list N -> A) (text_lower : list N)
    (keywords : list (list N)) (found : list A) : list A :=
  match keywords with
  | [] => found
  | keyword :: rest =>
    if str_in keyword text_lower then found ++ [mk keyword]
    else scan_keywords mk text_lower rest found
  end.

(** The outer loop [for type, keywords in patterns.items()]. *)
Fixpoint scan_table {A} (mk : list N -> list N -> A) (text_lower : list N)
    (patterns : list (list N * list (list N))) (found : list A) : list A :=
  match patterns with
  | [] => found
  | (type, keywords) :: rest =>
    scan_table mk text_lower rest
      (scan_keywords (mk type) text_lower keywords found)
  end.

(** Lines 194-206: [for pattern in unclear_patterns: if pattern in
    text_lower: ... append(...)], without a [break]. *)
Fixpoint scan_phrases {A} (mk : list N -> A) (text_lower : list N)
    (patterns : list (list N)) (found : list A) : list A :=
  match patterns with
  | [] => found
  | pattern :: rest =>
    scan_phrases mk text_lower rest
      (if str_in pattern text_lower then found ++ [mk pattern] else found)
  end.

(** Lines 209-219. *)
Definition rate (risks : list (list (list N * list N))) : list N :=
  let risk_count := len risks in
  let severe_risks :=
    len (filter (fun r => dict_get r (U "severity") = Some HIGH) risks) in
  if severe_risks >? 0 then RISKY
  else if risk_count >? 3 then NEEDS_ATTENTION
  else if risk_count >? 0 then NEEDS_ATTENTION
  else SAFE.

Section Engine.

(** [str.lower] and [str.upper] of the Python runtime. *)
Variable lower upper : list N -> list N.

(** [any("штраф" in r["keyword"] for r in risks)] (line 233). *)
Fixpoint any_penalty (risks : list (list (list N * list N))) : result bool :=
  match risks with
  | [] => Ok false
  | r :: rest =>
    keyword ← getitem r (U "keyword");
    if str_in (U "штраф") keyword then Ok true else any_penalty rest
  end.

(** Lines 222-238: the f-string of the summary, stripped. *)
Definition render_summary (filename : list N)
    (risks benefits unclear_terms : list (list (list N * list N)))
    (overall_rating : list N) : result (list N) :=
  penalty ← any_penalty risks;
  Ok (strip (
    NL ++ U "Документ '" ++ filename ++ U "' проанализирован:" ++ NL
    ++ NL
    ++ U "🔍 ОСНОВНЫЕ НАХОДКИ:" ++ NL
    ++ U "• Рисков найдено: " ++ str_of_nat (length risks) ++ NL
    ++ U "• Выгодных условий: " ++ str_of_nat (length benefits) ++ NL
    ++ U "• Неясных формулировок: " ++ str_of_nat (length unclear_terms) ++ NL
    ++ NL
    ++ U "⚖️ ОБЩАЯ ОЦЕНКА: " ++ upper overall_rating ++ NL
    ++ NL
    ++ U "💡 РЕКОМЕНДАЦИИ:" ++ NL
    ++ (if (penalty : bool)
        then U "• Обратите особое внимание на штрафные санкции" else []) ++ NL
    ++ (match unclear_terms with
        | _ :: _ => U "• Уточните неопределенные формулировки"
        | [] => []
        end) ++ NL
    ++ (match benefits with
        | _ :: _ => U "• Используйте найденные гарантии в свою пользу"
        | [] => []
        end) ++ NL
    ++ NL
    ++ U "📋 Этот анализ основан на базовых правилах. Для детального изучения рекомендуется консультация с юристом." ++ NL
    ++ U "        ")).

(** The three scans of lines 131-206. *)
Definition extract_risks (text : list N) : list (list (list N * list N)) :=
  let text_lower := lower text in
  scan_table (risk_finding text text_lower) text_lower risk_patterns [].

Definition extract_benefits (text : list N) : list (list (list N * list N)) :=
  let text_lower := lower text in
  scan_table (benefit_finding text text_lower) text_lower benefit_patterns [].

Definition extract_unclear (text : list N) : list (list (list N * list N)) :=
  let text_lower := lower text in
  scan_phrases (unclear_finding text text_lower) text_lower unclear_patterns [].

(** Line 243: [text[:2000] + "..." if len(text) > 2000 else text]. *)
Definition excerpt (text : list N) : list N :=
  if len text >? 2000 then slice text 0 2000 ++ U "..." else text.

(** Lines 128-250.  [uuid4] and [now] are the values of [str(uuid.uuid4())]
    and [datetime.now().isoformat()]. *)
Definition analyze_document (text filename uuid4 now : list N)
  : result DocumentAnalysis :=
  let risks := extract_risks text in
  let benefits := extract_benefits text in
  let unclear_terms := extract_unclear text in
  let overall_rating := rate risks in
  summary ← render_summary filename risks benefits unclear_terms overall_rating;
  Ok {| document_id := uuid4;
        filename := filename;
        text_content := excerpt text;
        risks := risks;
        benefits := benefits;
        unclear_terms := unclear_terms;
        overall_rating := overall_rating;
        summary := summary;
        processed_at := now |}.

(** ** The chat responder (lines 336-380) *)

Definition risk_words : list (list N) := [U "риск"; U "опасн"; U "штраф"].
Definition benefit_words : list (list N) := [U "выгод"; U "плюс"; U "хорош"].
Definition unclear_words : list (list N) :=
  [U "непонятн"; U "неясн"; U "что означает"].
Definition decision_words : list (list N) :=
  [U "подписывать"; U "согласиться"; U "стоит ли"].

(** [f"• {d[k1]}: {d[k2]}"] *)
Definition bullet (k1 k2 : list N) (d : list (list N * list N))
  : result (list N) :=
  a ← getitem d k1;
  b ← getitem d k2;
  Ok (U "• " ++ a ++ U ": " ++ b).

(** [head + body if body else otherwise], where [body] is the joined list. *)
Definition listing (head otherwise : list N) (k1 k2 : list N)
    (findings : list (list (list N * list N))) : result (list N) :=
  lines ← map_result (bullet k1 k2) findings;
  let body := join NL lines in
  Ok (match body with
      | _ :: _ => head ++ body
      | [] => otherwise
      end).

(** Lines 340-341. *)
Definition risk_answer (document : DocumentAnalysis) : result (list N) :=
  listing (U "🚨 В документе найдены следующие риски:" ++ NL ++ NL)
          (U "В документе не найдено серьезных рисков.")
          (U "type") (U "recommendation") (risks document).

(** Lines 344-345. *)
Definition benefit_answer (document : DocumentAnalysis) : result (list N) :=
  listing (U "✅ Выгодные условия в документе:" ++ NL ++ NL)
          (U "Явных выгодных условий не найдено.")
          (U "type") (U "keyword") (benefits document).

(** Lines 348-349. *)
Definition unclear_answer (document : DocumentAnalysis) : result (list N) :=
  listing (U "❓ Неясные формулировки:" ++ NL ++ NL)
          (U "Все формулировки достаточно понятны.")
          (U "phrase") (U "explanation") (unclear_terms document).

(** Lines 352-365. *)
Definition decision_answer (document : DocumentAnalysis) : list N :=
  NL ++ U "🤔 Рекомендация по документу:" ++ NL
  ++ NL
  ++ U "Общая оценка: " ++ overall_rating document ++ NL
  ++ NL
  ++ (if bool_decide (overall_rating document <> SAFE)
      then U "⚠️ Рекомендую внимательно изучить риски перед подписанием."
      else U "✅ Документ выглядит относительно безопасным.") ++ NL
  ++ NL
  ++ U "💡 Советую:" ++ NL
  ++ U "1. Проконсультироваться с юристом" ++ NL
  ++ U "2. Обратить внимание на найденные риски" ++ NL
  ++ U "3. Уточнить неясные формулировки" ++ NL
  ++ NL
  ++ U "Помните: это базовый анализ, окончательное решение за вами!" ++ NL
  ++ U "        ".

Definition QUOTE : list N := [34%N].

(** Lines 368-380. *)
Definition fallback_answer (document : DocumentAnalysis) : list N :=
  NL ++ U "💬 Спасибо за вопрос! " ++ NL
  ++ NL
  ++ U "Я проанализировал ваш документ " ++ QUOTE ++ filename document ++ QUOTE
  ++ U " и могу ответить на вопросы о:" ++ NL
  ++ U "• Рисках в договоре" ++ NL
  ++ U "• Выгодных условиях  " ++ NL
  ++ U "• Неясных формулировках" ++ NL
  ++ U "• Рекомендациях по подписанию" ++ NL
  ++ NL
  ++ U "Попробуйте спросить: " ++ QUOTE ++ U "Какие есть риски?" ++ QUOTE
  ++ U " или " ++ QUOTE ++ U "Стоит ли подписывать?" ++ QUOTE ++ NL
  ++ NL
  ++ U "🔬 В разработке: полноценный AI-помощник с детальным анализом каждого пункта." ++ NL
  ++ U "        ".

(** Lines 336-380: the [if]/[elif] chain over the lower-cased question. *)
Definition chat_answer (document : DocumentAnalysis) (question : list N)
  : result (list N) :=
  let question_lower := lower question in
  if any_in risk_words question_lower then risk_answer document
  else if any_in benefit_words question_lower then benefit_answer document
  else if any_in unclear_words question_lower then unclear_answer document
  else if any_in decision_words question_lower
       then Ok (decision_answer document)
  else Ok (fallback_answer document).

(** Lines 327-392.  The handler reads and updates the two stores; an
    exception leaves them as they are at the point where it is raised. *)
Definition chat_with_document (message : ChatMessage.t) (now : list N)
    (st : Store) : result ChatResponse.t * Store :=
  let id := ChatMessage.document_id message in
  match documents_storage st !! id with
  | None => (Raise (HTTPException 404 (U "Документ не найден")), st)
  | Some document =>
    match chat_answer document (ChatMessage.question message) with
    | Raise e => (Raise e, st)
    | Ok answer =>
      let history :=
        match chat_history st !! id with
        | None => <[id := []]> (chat_history st)
        | Some _ => chat_history st
        end in
      let exchange :=
        [ (U "question", ChatMessage.question message);
          (U "answer", answer);
          (U "timestamp", now) ] in
      (Ok {| ChatResponse.answer := answer; ChatResponse.document_id := id |},
       {| documents_storage := documents_storage st;
          chat_history := alter (fun l => l ++ [exchange]) id history |})
    end
  end.

(** Line 317: [documents_storage[analysis.document_id] = analysis]. *)
Definition store_analysis (analysis : DocumentAnalysis) (st : Store) : Store :=
  {| documents_storage := <[document_id analysis := analysis]> (documents_storage st);
     chat_history := chat_history st |}.

(** Every stored record was built by [analyze_document]: line 317 is the
    only write to [documents_storage]. *)
Definition from_analyzer (document : DocumentAnalysis) : Prop :=
  exists text filename uuid4 now,
    analyze_document text filename uuid4 now = Ok document.

Definition store_ok (st : Store) : Prop :=
  forall id document,
    documents_storage st !! id = Some document -> from_analyzer document.

End Engine.

(** ** A case mapping for concrete runs

    [lower_sample] and [upper_sample] agree with [str.lower] and [str.upper]
    on text made of ASCII, of the Cyrillic block U+0400-U+045F and of
    U+0130 (the one code point whose lower case is two code points long,
    U+0069 U+0307); other code points are left as they are.  They are used
    to run the embedding on concrete texts only: the theorems quantify over
    every case mapping. *)

Definition lower_char (c : N) : list N :=
  (if (65 <=? c) && (c <=? 90) then [c + 32]
   else if (1040 <=? c) && (c <=? 1071) then [c + 32]
   else if (1024 <=? c) && (c <=? 1039) then [c + 80]
   else if c =? 304 then [105; 775]
   else [c])%N.

Definition lower_sample (s : list N) : list N := flat_map lower_char s.

(** The lower case of a code point whose lower case is one code point. *)
Definition lower_letter (c : N) : N := hd c (lower_char c).

Definition upper_char (c : N) : list N :=
  (if (97 <=? c) && (c <=? 122) then [c - 32]
   else if (1072 <=? c) && (c <=? 1103) then [c - 32]
   else if (1104 <=? c) && (c <=? 1119) then [c - 80]
   else [c])%N.

Definition upper_sample (s : list N) : list N := flat_map upper_char s.

(** ** Specification-side definitions *)

(** The first keyword of a list that occurs in the lower-cased text. *)
Fixpoint first_match (text_lower : list N) (keywords : list (list N))
  : option (list N) :=
  match keywords with
  | [] => None
  | keyword :: rest =>
    if str_in keyword text_lower then Some keyword
    else first_match text_lower rest
  end.

(** The rating rule in the words of the specification: any high-severity
    risk makes the document risky; otherwise any risk makes it need
    attention; otherwise it is safe. *)
Definition rate_simplified (risks : list (list (list N * list N))) : list N :=
  if existsb (fun r => bool_decide (dict_get r (U "severity") = Some HIGH)) risks
  then RISKY
  else match risks with
       | _ :: _ => NEEDS_ATTENTION
       | [] => SAFE
       end.

(** [s] ends with [suffix]. *)
Definition ends_with (suffix s : list N) : Prop := exists pre, s = pre ++ suffix.

(** A keyword that line 156 rates as severe. *)
Definition severe_keyword (keyword : list N) : Prop :=
  any_in severe_fragments keyword = true /\
  exists type keywords,
    In (type, keywords) risk_patterns /\ In keyword keywords.

(** Neither end of the word is white space. *)
Definition solid_ends (k : list N) : bool :=
  match k with
  | c :: _ => negb (isspace c)
  | [] => false
  end
  && match rev k with
     | d :: _ => negb (isspace d)
     | [] => false
     end.

(** The finding of one table row: the row's first keyword that occurs, if
    any. *)
Definition row_finding {A} (mk : list N -> list N -> A) (text_lower : list N)
    (row : list N * list (list N)) : option A :=
  mk row.1 <$> first_match text_lower row.2.

(** A risk that line 210 counts as severe. *)
Definition severe (r : list (list N * list N)) : Prop :=
  dict_get r (U "severity") = Some HIGH.

(** A finding of the given subtype. *)
Definition has_type (type : list N) (f : list (list N * list N)) : Prop :=
  dict_get f (U "type") = Some type.

#[global] Instance has_type_dec type f : Decision (has_type type f).
Proof. unfold has_type. apply _. Defined.

(** ** Sample inputs *)

(** The end-to-end text of the specification. *)
Definition penalty_text : list N :=
  U "Штраф за просрочку составляет 10% ежедневно.".

(** The same clause shouted. *)
Definition shouted_text : list N := U "ШТРАФ за просрочку составляет 10%".

Definition neutral_text : list N :=
  U "Настоящий документ составлен в двух экземплярах на русском языке.".

(** A short document that ends with an ellipsis of its own. *)
Definition ellipsis_text : list N :=
  U "Стороны договорились о нижеследующем, подробности изложены далее...".

(** 150 capital dotted I (U+0130), whose lower case is two code points
    long each, before the clause. *)
Definition dotted_text : list N := repeat 304%N 150 ++ U "штраф за просрочку".

(** Two keywords of one subtype, the later of the table first. *)
Definition two_keyword_text : list N :=
  U "Пеня и штраф начисляются за каждый день просрочки.".

(** 2001 characters. *)
Definition long_text : list N := repeat 97%N 2001.

(** A question with a risk word and a benefit word. *)
Definition both_question : list N := U "Какие здесь риски и какие выгоды?".

(** The record the analyzer builds for [penalty_text]. *)
Definition sample_analysis : DocumentAnalysis :=
  match analyze_document lower_sample upper_sample penalty_text
          (U "contract.txt") (U "doc-1") (U "2024-01-01T00:00:00") with
  | Ok analysis => analysis
  | Raise _ =>
    {| document_id := []; filename := []; text_content := []; risks := [];
       benefits := []; unclear_terms := []; overall_rating := [];
       summary := []; processed_at := [] |}
  end.

(** The store after that record was saved (line 317). *)
Definition sample_store : Store := store_analysis sample_analysis empty_store.

(** Every keyword and phrase of the three tables. *)
Definition configured_keywords : list (list N) :=
  concat risk_patterns.*2 ++ concat benefit_patterns.*2 ++ unclear_patterns.

(** ** FileProcessor (lines 67-122)

    [PyPDF2] and [pytesseract] are libraries outside the repository.  What
    they hand to the code is taken as given: for a PDF either the failure of
    [PdfReader] (with the text of the exception) or the pages, each with the
    text [page.extract_text()] returns or a failure; for an image either the
    text of the exception that [Image.open], [convert], [resize] or
    [image_to_string] raised, or the text that was recognised. *)

Inductive pdf_source : Type :=
  | PdfUnreadable (message : list N)
  | PdfPages (pages : list (option (list N))).

Inductive ocr_outcome : Type :=
  | OcrFails (message : list N)
  | OcrText (text : list N).

(** Line 82: [f"\n--- Страница {page_num + 1} ---\n"]. *)
Definition page_header (page_num : nat) : list N :=
  NL ++ U "--- Страница " ++ str_of_nat (page_num + 1) ++ U " ---" ++ NL.

(** Lines 78-86: the loop over [enumerate(pdf_reader.pages)].  A page whose
    extraction fails is reported on the console and skipped; a page whose
    text is blank is skipped. *)
Fixpoint pdf_pages_text (pages : list (option (list N))) (page_num : nat)
    (text : list N) : list N :=
  match pages with
  | [] => text
  | page :: rest =>
    pdf_pages_text rest (S page_num)
      (match page with
       | Some page_text =>
         match strip page_text with
         | _ :: _ => (text ++ page_header page_num) ++ (page_text ++ NL)
         | [] => text
         end
       | None => text
       end)
  end.

(** Lines 71-93. *)
Definition extract_text_from_pdf (source : pdf_source) : result (list N) :=
  match source with
  | PdfUnreadable message =>
    Raise (HTTPException 400 (U "Ошибка обработки PDF: " ++ message))
  | PdfPages pages =>
    let text := pdf_pages_text pages 0 [] in
    match strip text with
    | [] =>
      Raise (HTTPException 400
               (U "Ошибка обработки PDF: "
                ++ U "PDF файл не содержит читаемого текста"))
    | _ :: _ => Ok (strip text)
    end
  end.

(** Lines 96-122. *)
Definition extract_text_from_image (outcome : ocr_outcome) : result (list N) :=
  match outcome with
  | OcrFails message => Raise (HTTPException 400 (U "Ошибка OCR: " ++ message))
  | OcrText text =>
    match strip text with
    | [] =>
      Raise (HTTPException 400
               (U "Ошибка OCR: "
                ++ U "Не удалось распознать текст на изображении"))
    | _ :: _ => Ok (strip text)
    end
  end.

(** ** The routes (lines 262-427) *)

(** The values of [allowed_types]. *)
Inductive file_kind : Type := pdf | image | text_file.

(** Lines 267-273. *)
Definition allowed_types : list (list N * file_kind) :=
  [ (U "application/pdf", pdf);
    (U "image/jpeg", image);
    (U "image/jpg", image);
    (U "image/png", image);
    (U "text/plain", text_file) ].

Fixpoint lookup_type (types : list (list N * file_kind)) (content_type : list N)
  : option file_kind :=
  match types with
  | [] => None
  | (k, v) :: rest =>
    if str_eqb k content_type then Some v else lookup_type rest content_type
  end.

(** Line 282. *)
Definition MAX_FILE_SIZE : Z := 10 * 1024 * 1024.

(** Lines 275-289 and 296: the checks on the upload, and its kind. *)
Definition check_upload (content_type : list N) (file_content : list Byte.byte)
  : result file_kind :=
  match lookup_type allowed_types content_type with
  | None =>
    Raise (HTTPException 400
             (U "Неподдерживаемый тип файла. Поддерживаются: PDF, JPG, PNG, TXT"))
  | Some file_type =>
    if len file_content >? MAX_FILE_SIZE
    then Raise (HTTPException 400 (U "Файл слишком большой (макс 10MB)"))
    else if len file_content =? 0
    then Raise (HTTPException 400 (U "Файл пустой"))
    else Ok file_type
  end.

(** [str(e)] for a [KeyError] whose key has no quote, backslash or control
    character in it (the keys of [main.py] are such): the key in single
    quotes. *)
Definition str_of_key_error (key : list N) : list N := U "'" ++ key ++ U "'".

(** Lines 321-324: an [HTTPException] passes, any other exception becomes
    an [HTTPException] with status 500. *)
Definition as_http (e : exn) : exn :=
  match e with
  | HTTPException status_code detail => HTTPException status_code detail
  | KeyError key =>
    HTTPException 500 (U "Ошибка анализа: " ++ str_of_key_error key)
  end.

(** Lines 411-417. *)
Definition get_document (document_id : list N) (st : Store)
  : result DocumentAnalysis :=
  match documents_storage st !! document_id with
  | None => Raise (HTTPException 404 (U "Документ не найден"))
  | Some document => Ok document
  end.

Module Health.
Record t : Type := {
  status : list N;
  service : list N;
  version : list N;
  documents_count : Z
}.
End Health.

(** Lines 419-427. *)
Definition health_check (st : Store) : Health.t :=
  {| Health.status := U "healthy";
     Health.service := U "SafeDocs";
     Health.version := U "1.0.0";
     Health.documents_count := Z.of_nat (size (documents_storage st)) |}.

(** A request to the API, with what the environment supplies to its handler
    (the fresh id and the time of the clock). *)
Inductive request : Type :=
  | PostAnalyze (content_type filename : list N)
                (file_content : list Byte.byte) (uuid4 now : list N)
  | PostChat (message : ChatMessage.t) (now : list N).

Section Api.

Variable lower upper : list N -> list N.

(** The libraries behind the three kinds of upload: [PyPDF2.PdfReader],
    [PIL] with [pytesseract], and [bytes.decode('utf-8')], which returns the
    text or fails with a [UnicodeDecodeError] (left: the text of the
    exception). *)
Variable read_pdf : list Byte.byte -> pdf_source.
Variable run_ocr : list Byte.byte -> ocr_outcome.
Variable decode_utf8 : list Byte.byte -> list N + list N.

(** Lines 300-305, with the exception handlers of lines 321-324 applied to
    what the extraction raises. *)
Definition extract_text (file_type : file_kind) (file_content : list Byte.byte)
  : result (list N) :=
  match file_type with
  | pdf => extract_text_from_pdf (read_pdf file_content)
  | image => extract_text_from_image (run_ocr file_content)
  | text_file =>
    match decode_utf8 file_content with
    | inr text => Ok text
    | inl message => Raise (HTTPException 500 (U "Ошибка анализа: " ++ message))
    end
  end.

(** Lines 263-324, the handler of [POST /api/analyze].  Writing the upload
    into the directory [uploads] (lines 292-294) acts on the file system
    only and is not part of the state modelled here; the handler is embedded
    for the runs in which that write succeeds. *)
Definition api_analyze_document (content_type filename : list N)
    (file_content : list Byte.byte) (uuid4 now : list N) (st : Store)
  : result DocumentAnalysis * Store :=
  match check_upload content_type file_content with
  | Raise e => (Raise e, st)
  | Ok file_type =>
    match extract_text file_type file_content with
    | Raise e => (Raise (as_http e), st)
    | Ok text =>
      if len (strip text) <? 50
      then (Raise (HTTPException 400
                     (U "Слишком мало текста для анализа (минимум 50 символов)")),
            st)
      else match analyze_document lower upper text filename uuid4 now with
           | Raise e => (Raise (as_http e), st)
           | Ok analysis => (Ok analysis, store_analysis analysis st)
           end
    end
  end.

(** One request, and a sequence of requests, against the stores. *)
Definition handle (r : request) (st : Store) : Store :=
  match r with
  | PostAnalyze content_type filename file_content uuid4 now =>
    snd (api_analyze_document content_type filename file_content uuid4 now st)
  | PostChat message now => snd (chat_with_document lower message now st)
  end.

Definition run (requests : list request) (st : Store) : Store :=
  fold_left (fun st r => handle r st) requests st.

End Api.

(** The history kept for a document id ([chat_history.get(id, [])]). *)
Definition history_of (st : Store) (id : list N)
  : list (list (list N * list N)) :=
  default [] (chat_history st !! id).

(** The exchange that lines 386-390 append. *)
Definition exchange_of (question answer now : list N)
  : list (list N * list N) :=
  [ (U "question", question); (U "answer", answer); (U "timestamp", now) ].

(** The stores as the handlers keep them: histories exist for stored
    documents only, and no history is empty. *)
Definition store_consistent (st : Store) : Prop :=
  forall id history,
    chat_history st !! id = Some history ->
    is_Some (documents_storage st !! id) /\ history <> [].

(** [s] occurs in [t] as a contiguous piece. *)
Definition piece_of (s t : list N) : Prop := exists pre post, t = pre ++ s ++ post.

(** The body of the summary of lines 222-238, without the white space that
    [strip] removes, for given gates of the three recommendation lines. *)
Definition summary_body (filename : list N) (n_risks n_benefits n_unclear : nat)
    (rating_upper : list N) (penalty unclear benefit : bool) : list N :=
  U "Документ '" ++ filename ++ U "' проанализирован:" ++ NL
  ++ NL
  ++ U "🔍 ОСНОВНЫЕ НАХОДКИ:" ++ NL
  ++ U "• Рисков найдено: " ++ str_of_nat n_risks ++ NL
  ++ U "• Выгодных условий: " ++ str_of_nat n_benefits ++ NL
  ++ U "• Неясных формулировок: " ++ str_of_nat n_unclear ++ NL
  ++ NL
  ++ U "⚖️ ОБЩАЯ ОЦЕНКА: " ++ rating_upper ++ NL
  ++ NL
  ++ U "💡 РЕКОМЕНДАЦИИ:" ++ NL
  ++ (if penalty
      then U "• Обратите особое внимание на штрафные санкции" else []) ++ NL
  ++ (if unclear then U "• Уточните неопределенные формулировки" else []) ++ NL
  ++ (if benefit
      then U "• Используйте найденные гарантии в свою пользу" else []) ++ NL
  ++ NL
  ++ U "📋 Этот анализ основан на базовых правилах. Для детального изучения рекомендуется консультация с юристом.".

(** A page that contributes to the text of a PDF. *)
Definition readable (page : option (list N)) : Prop :=
  exists page_text, page = Some page_text /\ strip page_text <> [].

(** ** Sample environment for concrete runs of the routes *)

(** A PDF library and an OCR engine that fail on every input, and a decoder
    that is [bytes.decode('utf-8')] on ASCII bytes (and fails on the
    others). *)
Definition no_pdf (file_content : list Byte.byte) : pdf_source :=
  PdfUnreadable (U "EOF marker not found").

Definition no_ocr (file_content : list Byte.byte) : ocr_outcome :=
  OcrFails (U "cannot identify image file").

Definition ascii_decode (file_content : list Byte.byte) : list N + list N :=
  if forallb (fun b => (Byte.to_N b <? 128)%N) file_content
  then inr (List.map Byte.to_N file_content)
  else inl (U "'utf-8' codec can't decode bytes").

Definition plain_upload : list Byte.byte :=
  list_byte_of_string
    "This agreement is made between the two parties named below, in two copies.".


(** Three pages: one that cannot be read, a blank one and one with text. *)
Definition sample_pages : list (option (list N)) :=
  [None; Some (U "   "); Some (U " Статья 1. Предмет договора ")].

Definition sample_requests : list request :=
  [ PostAnalyze (U "text/plain") (U "contract.txt") plain_upload
      (U "doc-2") (U "2024-01-01T00:00:00");
    PostChat {| ChatMessage.document_id := U "doc-2";
                ChatMessage.question := U "какие риски?" |}
             (U "2024-01-01T00:05:00");
    PostChat {| ChatMessage.document_id := U "doc-9";
                ChatMessage.question := U "какие риски?" |}
             (U "2024-01-01T00:06:00") ].

(** * Properties *)

(** ** Strings *)

Example U_shtraf : U "штраф" = [1096; 1090; 1088; 1072; 1092]%N.
Proof. reflexivity. Qed.

Example U_emoji : U "🚨" = [128680]%N.
Proof. reflexivity. Qed.

Example find_ex : find (U "bc") (U "abcbc") = 1 /\ find (U "x") (U "abc") = -1.
Proof. split; reflexivity. Qed.

Example slice_ex : slice (U "abcdef") 2 4 = U "cd" /\ slice (U "abc") 5 2 = [].
Proof. split; reflexivity. Qed.

Example strip_ex : strip (U "  a b
 ") = U "a b".
Proof. reflexivity. Qed.

Example str_of_nat_ex : str_of_nat 0 = U "0" /\ str_of_nat 12 = U "12".
Proof. split; reflexivity. Qed.

Lemma is_prefix_app (p t : list N) : is_prefix p (p ++ t) = true.
Proof.
  induction p as [|a p IH]; simpl; [reflexivity|].
  rewrite N.eqb_refl. exact IH.
Qed.

Lemma is_prefix_inv (p s : list N) :
  is_prefix p s = true -> exists t, s = p ++ t.
Proof.
  revert s. induction p as [|a p IH]; intros s H.
  - exists s. reflexivity.
  - destruct s as [|b s]; simpl in H; [discriminate|].
    apply andb_true_iff in H. destruct H as [Hab Hp].
    apply N.eqb_eq in Hab. subst b.
    destruct (IH _ Hp) as [t ->]. exists t. reflexivity.
Qed.

Lemma find_from_shift (sub s : list N) (i : Z) :
  str_in sub s = true -> find_from sub s i = i + find_from sub s 0.
Proof.
  revert i. induction s as [|c s IH]; intros i H; simpl in *.
  - destruct (is_prefix sub []); [lia | discriminate].
  - destruct (is_prefix sub (c :: s)); [lia|].
    rewrite (IH (i + 1) H), (IH (0 + 1) H). lia.
Qed.

Lemma find_from_absent (sub s : list N) (i : Z) :
  str_in sub s = false -> find_from sub s i = -1.
Proof.
  revert i. induction s as [|c s IH]; intros i H; simpl in *.
  - destruct (is_prefix sub []); [discriminate | reflexivity].
  - destruct (is_prefix sub (c :: s)); [discriminate|]. apply IH, H.
Qed.

(** [find] returns the position of the first occurrence. *)
Lemma find_spec (sub s : list N) :
  str_in sub s = true ->
  exists pre post,
    s = pre ++ sub ++ post /\ find sub s = len pre /\
    forall j, (j < length pre)%nat -> is_prefix sub (drop j s) = false.
Proof.
  unfold find. induction s as [|c s IH]; intros H; simpl in *.
  - destruct (is_prefix sub []) eqn:E; [|discriminate].
    destruct (is_prefix_inv _ _ E) as [t Ht].
    exists [], t. repeat split; [exact Ht | intros j Hj; simpl in Hj; lia].
  - destruct (is_prefix sub (c :: s)) eqn:E.
    + destruct (is_prefix_inv _ _ E) as [t Ht].
      exists [], t. repeat split; [exact Ht | intros j Hj; simpl in Hj; lia].
    + destruct (IH H) as (pre & post & Hs & Hf & Hmin).
      exists (c :: pre), post. split; [simpl; congruence|]. split.
      * rewrite (find_from_shift _ _ (0 + 1) H), Hf. unfold len. simpl length. lia.
      * intros [|j] Hj; simpl; [exact E|]. apply Hmin. simpl in Hj. lia.
Qed.

Lemma str_in_find (sub s : list N) :
  str_in sub s = true <-> 0 <= find sub s.
Proof.
  split; intros H.
  - destruct (find_spec _ _ H) as (pre & _ & _ & -> & _). unfold len. lia.
  - destruct (str_in sub s) eqn:E; [reflexivity|].
    unfold find in H. rewrite (find_from_absent _ _ 0 E) in H. lia.
Qed.

Lemma str_in_prefix (sub s : list N) :
  is_prefix sub s = true -> str_in sub s = true.
Proof. intros H. destruct s; simpl; rewrite H; reflexivity. Qed.

Lemma str_in_app (sub pre post : list N) :
  str_in sub (pre ++ sub ++ post) = true.
Proof.
  induction pre as [|c pre IH]; simpl.
  - apply str_in_prefix, is_prefix_app.
  - rewrite IH. destruct (is_prefix sub (c :: pre ++ sub ++ post)); reflexivity.
Qed.

Lemma str_in_nil (sub : list N) : sub <> [] -> str_in sub [] = false.
Proof. destruct sub; [congruence | reflexivity]. Qed.

Lemma find_lower_bound (sub s : list N) : -1 <= find sub s.
Proof.
  destruct (str_in sub s) eqn:E.
  - apply str_in_find in E. lia.
  - unfold find. rewrite (find_from_absent _ _ 0 E). lia.
Qed.

Lemma length_lstrip (s : list N) : (length (lstrip s) <= length s)%nat.
Proof.
  induction s as [|c s IH]; simpl; [lia|].
  destruct (isspace c); simpl; lia.
Qed.

Lemma length_strip (s : list N) : (length (strip s) <= length s)%nat.
Proof.
  unfold strip, rstrip. rewrite length_rev.
  etransitivity; [apply length_lstrip|]. rewrite length_rev. apply length_lstrip.
Qed.

Lemma length_slice (s : list N) (a b : Z) :
  0 <= a -> 0 <= b -> (length (slice s a b) <= Z.to_nat (b - a))%nat.
Proof.
  intros Ha Hb. unfold slice, adjust_index.
  destruct (Z.ltb_spec a 0), (Z.ltb_spec b 0); try lia.
  rewrite length_take. lia.
Qed.

Lemma lstrip_keeps (a k b : list N) (c : N) :
  isspace c = false ->
  exists a', lstrip (a ++ (c :: k) ++ b) = a' ++ (c :: k) ++ b.
Proof.
  intros Hc. induction a as [|x a IH]; simpl.
  - exists []. rewrite Hc. reflexivity.
  - destruct (isspace x); [exact IH|]. exists (x :: a). reflexivity.
Qed.

Lemma strip_keeps (a k b : list N) :
  solid_ends k = true -> exists a' b', strip (a ++ k ++ b) = a' ++ k ++ b'.
Proof.
  unfold solid_ends. intros H. apply andb_true_iff in H. destruct H as [H1 H2].
  destruct k as [|c k]; [discriminate|].
  apply negb_true_iff in H1.
  destruct (rev (c :: k)) as [|d kr] eqn:Er; [discriminate|].
  apply negb_true_iff in H2.
  destruct (lstrip_keeps a k b c H1) as [a' Ha'].
  unfold strip, rstrip. rewrite Ha'.
  rewrite !rev_app_distr, Er, <- app_assoc.
  destruct (lstrip_keeps (rev b) kr (rev a') d H2) as [b' Hb'].
  rewrite Hb'. exists a', (rev b').
  rewrite !rev_app_distr, rev_involutive, <- Er, rev_involutive, <- app_assoc.
  reflexivity.
Qed.

(** A slice that covers an occurrence contains it. *)
Lemma slice_keeps (pre k post : list N) (a b : Z) :
  0 <= a <= len pre -> len pre + len k <= b ->
  exists pre' post', slice (pre ++ k ++ post) a b = pre' ++ k ++ post'.
Proof.
  unfold len. intros Ha Hb. unfold slice, adjust_index, len.
  rewrite !length_app.
  destruct (Z.ltb_spec a 0), (Z.ltb_spec b 0); try lia.
  rewrite drop_app_le by lia.
  exists (drop (Z.to_nat (a `min` Z.of_nat (length pre + (length k + length post)))) pre).
  set (lo := Z.to_nat (a `min` _)).
  set (n := Z.to_nat _).
  assert (Hn : (length (drop lo pre) + length k <= n)%nat).
  { subst n lo. rewrite length_drop. lia. }
  rewrite take_app_ge by lia.
  rewrite take_app_ge by lia.
  eexists. reflexivity.
Qed.

(** A word that lower-casing leaves alone is found in the lower-cased text
    wherever it is found in the text, when lower-casing maps the text
    character by character. *)
Lemma str_in_fmap (lc : N -> N) (sub s : list N) :
  Forall (fun c => lc c = c) sub ->
  str_in sub s = true -> str_in sub (lc <$> s) = true.
Proof.
  intros Hfix Hin.
  assert (Hsub : lc <$> sub = sub).
  { clear Hin. induction Hfix as [|c sub Hc _ IH]; [reflexivity|].
    csimpl. rewrite Hc, IH. reflexivity. }
  destruct (find_spec _ _ Hin) as (pre & post & -> & _ & _).
  rewrite !fmap_app, Hsub. apply str_in_app.
Qed.

(** ** The scanning loops *)

Section Scan.
Context {A : Type}.

Lemma scan_keywords_spec (mk : list N -> A) text_lower keywords found :
  scan_keywords mk text_lower keywords found
  = found ++ option_list (mk <$> first_match text_lower keywords).
Proof.
  induction keywords as [|k rest IH]; simpl.
  - rewrite app_nil_r. reflexivity.
  - destruct (str_in k text_lower); [reflexivity | exact IH].
Qed.

Lemma scan_table_spec (mk : list N -> list N -> A) text_lower patterns found :
  scan_table mk text_lower patterns found
  = found ++ omap (row_finding mk text_lower) patterns.
Proof.
  revert found. induction patterns as [|[type keywords] rest IH]; intros found; simpl.
  - rewrite app_nil_r. reflexivity.
  - rewrite IH, scan_keywords_spec, <- app_assoc. f_equal.
    unfold row_finding at 2. simpl.
    destruct (first_match text_lower keywords); reflexivity.
Qed.

Lemma scan_phrases_spec (mk : list N -> A) text_lower patterns found :
  scan_phrases mk text_lower patterns found
  = found ++ (mk <$> filter (fun p => str_in p text_lower = true) patterns).
Proof.
  revert found. induction patterns as [|p rest IH]; intros found; simpl.
  - rewrite app_nil_r. reflexivity.
  - rewrite IH. rewrite filter_cons.
    destruct (decide (str_in p text_lower = true)) as [E|E].
    + rewrite E, <- app_assoc. reflexivity.
    + apply not_true_is_false in E. rewrite E. reflexivity.
Qed.

Lemma length_omap_le {B} (f : B -> option A) (l : list B) :
  (length (omap f l) <= length l)%nat.
Proof.
  induction l as [|x l IH]; csimpl; [lia|].
  destruct (f x); csimpl; lia.
Qed.

Lemma omap_sublist {B C} (f : B -> option A) (g : A -> C) (h : B -> C)
    (l : list B) :
  (forall x y, f x = Some y -> g y = h x) ->
  sublist (g <$> omap f l) (h <$> l).
Proof.
  intros Hfg. induction l as [|x l IH]; csimpl; [constructor|].
  destruct (f x) as [y|] eqn:E; csimpl.
  - rewrite (Hfg _ _ E). constructor. exact IH.
  - constructor. exact IH.
Qed.
End Scan.

Lemma first_match_Some text_lower keywords keyword :
  first_match text_lower keywords = Some keyword <->
  exists pre post,
    keywords = pre ++ keyword :: post /\
    Forall (fun k => str_in k text_lower = false) pre /\
    str_in keyword text_lower = true.
Proof.
  split.
  - induction keywords as [|k rest IH]; simpl; [discriminate|].
    destruct (str_in k text_lower) eqn:E.
    + intros [= ->]. exists [], rest. repeat split; [constructor | exact E].
    + intros H. destruct (IH H) as (pre & post & -> & Hpre & Hk).
      exists (k :: pre), post. repeat split; [constructor; assumption | exact Hk].
  - intros (pre & post & -> & Hpre & Hk).
    induction Hpre as [|k pre Hk' _ IH]; simpl.
    + rewrite Hk. reflexivity.
    + rewrite Hk'. exact IH.
Qed.

Lemma first_match_None text_lower keywords :
  first_match text_lower keywords = None <->
  Forall (fun k => str_in k text_lower = false) keywords.
Proof.
  induction keywords as [|k rest IH]; simpl.
  - split; [constructor | reflexivity].
  - destruct (str_in k text_lower) eqn:E.
    + split; [discriminate|]. intros H. inversion H; congruence.
    + rewrite IH. split; [constructor; assumption|]. intros H. inversion H; assumption.
Qed.

(** ** The findings of the three scans *)

Section Findings.
Variable lower : list N -> list N.

Lemma extract_risks_spec (text : list N) :
  extract_risks lower text
  = omap (row_finding (risk_finding text (lower text)) (lower text)) risk_patterns.
Proof. unfold extract_risks. rewrite scan_table_spec. reflexivity. Qed.

Lemma extract_benefits_spec (text : list N) :
  extract_benefits lower text
  = omap (row_finding (benefit_finding text (lower text)) (lower text))
      benefit_patterns.
Proof. unfold extract_benefits. rewrite scan_table_spec. reflexivity. Qed.

Lemma extract_unclear_spec (text : list N) :
  extract_unclear lower text
  = unclear_finding text (lower text)
    <$> filter (fun p => str_in p (lower text) = true) unclear_patterns.
Proof. unfold extract_unclear. rewrite scan_phrases_spec. reflexivity. Qed.

(** Every risk is a [risk_finding] for a row of the table and the first
    keyword of that row that occurs in the text. *)
Lemma elem_of_extract_risks (text : list N) r :
  r ∈ extract_risks lower text <->
  exists type keywords keyword,
    (type, keywords) ∈ risk_patterns /\
    first_match (lower text) keywords = Some keyword /\
    r = risk_finding text (lower text) type keyword.
Proof.
  rewrite extract_risks_spec, list_elem_of_omap. unfold row_finding. split.
  - intros ([type keywords] & Hin & Hr). simpl in Hr.
    destruct (first_match (lower text) keywords) as [keyword|] eqn:E;
      [|discriminate].
    injection Hr as <-. exists type, keywords, keyword. auto.
  - intros (type & keywords & keyword & Hin & E & ->).
    exists (type, keywords). split; [exact Hin|]. simpl. rewrite E. reflexivity.
Qed.

Lemma elem_of_extract_benefits (text : list N) b :
  b ∈ extract_benefits lower text <->
  exists type keywords keyword,
    (type, keywords) ∈ benefit_patterns /\
    first_match (lower text) keywords = Some keyword /\
    b = benefit_finding text (lower text) type keyword.
Proof.
  rewrite extract_benefits_spec, list_elem_of_omap. unfold row_finding. split.
  - intros ([type keywords] & Hin & Hr). simpl in Hr.
    destruct (first_match (lower text) keywords) as [keyword|] eqn:E;
      [|discriminate].
    injection Hr as <-. exists type, keywords, keyword. auto.
  - intros (type & keywords & keyword & Hin & E & ->).
    exists (type, keywords). split; [exact Hin|]. simpl. rewrite E. reflexivity.
Qed.

Lemma elem_of_extract_unclear (text : list N) u :
  u ∈ extract_unclear lower text <->
  exists pattern,
    pattern ∈ unclear_patterns /\ str_in pattern (lower text) = true /\
    u = unclear_finding text (lower text) pattern.
Proof.
  rewrite extract_unclear_spec, list_elem_of_fmap. split.
  - intros (p & -> & Hp). apply list_elem_of_filter in Hp as [Hp1 Hp2]. eauto.
  - intros (p & Hp1 & Hp2 & ->). exists p. split; [reflexivity|].
    apply list_elem_of_filter. auto.
Qed.
End Findings.

(** ** Reading the fields of a finding *)

Lemma risk_type text tl type keyword :
  dict_get (risk_finding text tl type keyword) (U "type") = Some type.
Proof. reflexivity. Qed.

Lemma risk_keyword text tl type keyword :
  dict_get (risk_finding text tl type keyword) (U "keyword") = Some keyword.
Proof. reflexivity. Qed.

Lemma risk_context text tl type keyword :
  dict_get (risk_finding text tl type keyword) (U "context")
  = Some (context_window text tl keyword).
Proof. reflexivity. Qed.

Lemma risk_severity text tl type keyword :
  dict_get (risk_finding text tl type keyword) (U "severity")
  = Some (if any_in severe_fragments keyword then HIGH else MEDIUM).
Proof. reflexivity. Qed.

Lemma risk_recommendation text tl type keyword :
  is_Some (dict_get (risk_finding text tl type keyword) (U "recommendation")).
Proof. eexists. reflexivity. Qed.

Lemma benefit_type text tl type keyword :
  dict_get (benefit_finding text tl type keyword) (U "type") = Some type.
Proof. reflexivity. Qed.

Lemma benefit_keyword text tl type keyword :
  dict_get (benefit_finding text tl type keyword) (U "keyword") = Some keyword.
Proof. reflexivity. Qed.

Lemma benefit_context text tl type keyword :
  dict_get (benefit_finding text tl type keyword) (U "context")
  = Some (context_window text tl keyword).
Proof. reflexivity. Qed.

Lemma unclear_phrase text tl pattern :
  dict_get (unclear_finding text tl pattern) (U "phrase") = Some pattern.
Proof. reflexivity. Qed.

Lemma unclear_context text tl pattern :
  dict_get (unclear_finding text tl pattern) (U "context")
  = Some (context_window text tl pattern).
Proof. reflexivity. Qed.

Lemma unclear_explanation text tl pattern :
  is_Some (dict_get (unclear_finding text tl pattern) (U "explanation")).
Proof. eexists. reflexivity. Qed.

(** ** The rating *)

Lemma severe_count_positive (risks : list (list (list N * list N))) :
  (len (filter severe risks) >? 0) = existsb (fun r => bool_decide (severe r)) risks.
Proof.
  unfold len. induction risks as [|r risks IH]; [reflexivity|].
  rewrite filter_cons. simpl existsb.
  destruct (decide (severe r)) as [Hs|Hs].
  - rewrite (bool_decide_eq_true_2 _ Hs). simpl length.
    apply Z.gtb_gt. lia.
  - rewrite (bool_decide_eq_false_2 _ Hs). exact IH.
Qed.

Lemma rate_cases (risks : list (list (list N * list N))) :
  rate risks
  = if existsb (fun r => bool_decide (severe r)) risks then RISKY
    else match risks with
         | _ :: _ => NEEDS_ATTENTION
         | [] => SAFE
         end.
Proof.
  unfold rate.
  change (fun r => dict_get r (U "severity") = Some HIGH) with severe.
  rewrite severe_count_positive.
  destruct (existsb _ risks); [reflexivity|].
  destruct risks as [|r risks]; [reflexivity|].
  unfold len. simpl length.
  destruct (Z.of_nat (S (length risks)) >? 3); [reflexivity|].
  replace (Z.of_nat (S (length risks)) >? 0) with true; [reflexivity|].
  symmetry. apply Z.gtb_gt. lia.
Qed.

Lemma rate_severe risks r :
  r ∈ risks -> severe r -> rate risks = RISKY.
Proof.
  intros Hin Hs. rewrite rate_cases.
  replace (existsb _ risks) with true; [reflexivity|].
  symmetry. apply existsb_exists. exists r. split.
  - apply list_elem_of_In, Hin.
  - apply bool_decide_eq_true_2, Hs.
Qed.

Lemma rate_not_severe risks :
  (forall r, r ∈ risks -> ~ severe r) -> risks <> [] ->
  rate risks = NEEDS_ATTENTION.
Proof.
  intros Hns Hne. rewrite rate_cases.
  replace (existsb _ risks) with false.
  - destruct risks; [congruence | reflexivity].
  - symmetry. apply not_true_is_false. intros H.
    apply existsb_exists in H as (r & Hin & Hs).
    apply bool_decide_eq_true_1 in Hs.
    apply (Hns r); [apply list_elem_of_In, Hin | exact Hs].
Qed.

(** ** The analyzer returns *)

Lemma getitem_Some d k v : dict_get d k = Some v -> getitem d k = Ok v.
Proof. unfold getitem. intros ->. reflexivity. Qed.

Lemma any_penalty_returns (risks : list (list (list N * list N))) :
  Forall (fun r => is_Some (dict_get r (U "keyword"))) risks ->
  returns (any_penalty risks).
Proof.
  induction 1 as [|r risks [k Hk] _ IH]; simpl.
  - eexists. reflexivity.
  - rewrite (getitem_Some _ _ _ Hk). simpl.
    destruct (str_in (U "штраф") k); [eexists; reflexivity | exact IH].
Qed.

Lemma map_result_returns {A B} (f : A -> result B) (xs : list A) :
  Forall (fun x => returns (f x)) xs -> returns (map_result f xs).
Proof.
  induction 1 as [|x xs [y Hy] _ [ys IH]]; simpl.
  - eexists. reflexivity.
  - rewrite Hy, IH. eexists. reflexivity.
Qed.

Lemma bullet_returns k1 k2 d :
  is_Some (dict_get d k1) -> is_Some (dict_get d k2) -> returns (bullet k1 k2 d).
Proof.
  intros [a Ha] [b Hb]. unfold bullet.
  rewrite (getitem_Some _ _ _ Ha), (getitem_Some _ _ _ Hb). eexists. reflexivity.
Qed.

Lemma listing_returns head otherwise k1 k2 findings :
  Forall (fun d => is_Some (dict_get d k1) /\ is_Some (dict_get d k2)) findings ->
  returns (listing head otherwise k1 k2 findings).
Proof.
  intros H. unfold listing.
  destruct (map_result_returns (bullet k1 k2) findings) as [lines ->].
  - eapply Forall_impl; [exact H|]. intros d [? ?]. apply bullet_returns; assumption.
  - eexists. reflexivity.
Qed.

Section Totality.
Variable lower upper : list N -> list N.

Lemma risks_well_formed text :
  Forall (fun r => is_Some (dict_get r (U "type")) /\
                   is_Some (dict_get r (U "keyword")) /\
                   is_Some (dict_get r (U "recommendation")))
         (extract_risks lower text).
Proof.
  apply Forall_forall. intros r Hr.
  apply elem_of_extract_risks in Hr as (ty & kws & kw & _ & _ & ->).
  repeat split; eexists; reflexivity.
Qed.

Lemma benefits_well_formed text :
  Forall (fun b => is_Some (dict_get b (U "type")) /\
                   is_Some (dict_get b (U "keyword")))
         (extract_benefits lower text).
Proof.
  apply Forall_forall. intros b Hb.
  apply elem_of_extract_benefits in Hb as (ty & kws & kw & _ & _ & ->).
  split; eexists; reflexivity.
Qed.

Lemma unclear_well_formed text :
  Forall (fun u => is_Some (dict_get u (U "phrase")) /\
                   is_Some (dict_get u (U "explanation")))
         (extract_unclear lower text).
Proof.
  apply Forall_forall. intros u Hu.
  apply elem_of_extract_unclear in Hu as (p & _ & _ & ->).
  split; eexists; reflexivity.
Qed.

(** The analyzer returns a record for every text, and the record carries
    the findings of the three scans, their rating and the excerpt. *)
Lemma analyze_document_returns text filename uuid4 now :
  exists summary,
    analyze_document lower upper text filename uuid4 now
    = Ok {| document_id := uuid4;
            filename := filename;
            text_content := excerpt text;
            risks := extract_risks lower text;
            benefits := extract_benefits lower text;
            unclear_terms := extract_unclear lower text;
            overall_rating := rate (extract_risks lower text);
            summary := summary;
            processed_at := now |}.
Proof.
  unfold analyze_document, render_summary.
  destruct (any_penalty_returns (extract_risks lower text)) as [penalty ->].
  - eapply Forall_impl; [apply risks_well_formed|]. intros r (_ & H & _). exact H.
  - eexists. reflexivity.
Qed.

(** The responder returns on every record the analyzer built. *)
Lemma chat_answer_returns document question :
  from_analyzer lower upper document ->
  returns (chat_answer lower document question).
Proof.
  intros (text & fn & id & now & Ha).
  destruct (analyze_document_returns text fn id now) as [s Hs].
  rewrite Hs in Ha. injection Ha as <-.
  unfold chat_answer.
  destruct (any_in risk_words _).
  { apply listing_returns. simpl.
    eapply Forall_impl; [apply risks_well_formed|]. intros r (? & _ & ?). auto. }
  destruct (any_in benefit_words _).
  { apply listing_returns. simpl. apply benefits_well_formed. }
  destruct (any_in unclear_words _).
  { apply listing_returns. simpl. apply unclear_well_formed. }
  destruct (any_in decision_words _); eexists; reflexivity.
Qed.
End Totality.

(** ** One finding per table row *)

Section Rows.
Variable mk : list N -> list N -> list (list N * list N).
Hypothesis mk_type : forall type keyword, has_type type (mk type keyword).
Variable text_lower : list N.

Lemma filter_type_absent table type :
  type ∉ table.*1 ->
  filter (has_type type) (omap (row_finding mk text_lower) table) = [].
Proof using mk_type.
  induction table as [|[ty kws] table IH]; csimpl; intros Hnot; [reflexivity|].
  apply not_elem_of_cons in Hnot as [Hne Hnot].
  unfold row_finding at 1. simpl.
  destruct (first_match text_lower kws) as [kw|]; csimpl; [|auto].
  rewrite filter_cons_False; [auto|].
  unfold has_type. rewrite mk_type. congruence.
Qed.

Lemma filter_type_row table type keywords :
  NoDup table.*1 -> (type, keywords) ∈ table ->
  filter (has_type type) (omap (row_finding mk text_lower) table)
  = option_list (mk type <$> first_match text_lower keywords).
Proof using mk_type.
  induction table as [|[ty kws] table IH]; csimpl; intros Hnd Hin.
  - apply elem_of_nil in Hin. contradiction.
  - apply NoDup_cons in Hnd as [Hfresh Hnd].
    apply elem_of_cons in Hin as [Heq|Hin].
    + injection Heq as <- <-. unfold row_finding at 1. simpl.
      destruct (first_match text_lower keywords) as [kw|]; csimpl.
      * rewrite filter_cons_True by apply mk_type.
        rewrite filter_type_absent by exact Hfresh. reflexivity.
      * apply filter_type_absent, Hfresh.
    + assert (ty <> type) as Hne.
      { intros ->. apply Hfresh.
        apply list_elem_of_fmap. exists (type, keywords). auto. }
      unfold row_finding at 1. simpl.
      destruct (first_match text_lower kws) as [kw|]; csimpl; [|auto].
      rewrite filter_cons_False; [auto|].
      unfold has_type. rewrite mk_type. congruence.
Qed.
End Rows.

Lemma risk_types_distinct : NoDup risk_patterns.*1.
Proof. apply (bool_decide_unpack _). vm_compute. exact I. Qed.

Lemma benefit_types_distinct : NoDup benefit_patterns.*1.
Proof. apply (bool_decide_unpack _). vm_compute. exact I. Qed.

Lemma unclear_phrases_distinct : NoDup unclear_patterns.
Proof. apply (bool_decide_unpack _). vm_compute. exact I. Qed.

(** Every keyword that line 156 rates as severe is the first keyword of
    its row, so no other keyword of the row can be recorded in its place. *)
Lemma severe_keywords_lead :
  forallb (fun row : list N * list (list N) =>
    forallb (fun k => implb (any_in severe_fragments k)
                        (str_eqb (hd [] row.2) k)) row.2) risk_patterns = true.
Proof. vm_compute. reflexivity. Qed.

Lemma severe_keyword_first keyword :
  severe_keyword keyword ->
  exists type rest, (type, keyword :: rest) ∈ risk_patterns.
Proof.
  intros [Hs (ty & kws & Hrow & Hkw)].
  pose proof severe_keywords_lead as H.
  rewrite forallb_forall in H. specialize (H _ Hrow). cbn [snd] in H.
  rewrite forallb_forall in H. specialize (H _ Hkw). cbn [snd] in H.
  rewrite Hs in H. cbn [implb] in H. apply bool_decide_eq_true_1 in H.
  destruct kws as [|k rest]; [destruct Hkw|]. cbn [hd] in H. subst k.
  exists ty, rest. apply list_elem_of_In, Hrow.
Qed.

(** ** Texts without keywords *)

Lemma scan_rows_empty {A} (mk : list N -> list N -> A) text_lower table :
  Forall (fun k => str_in k text_lower = false) (concat table.*2) ->
  omap (row_finding mk text_lower) table = [].
Proof.
  rewrite Forall_concat. induction table as [|[ty kws] table IH]; csimpl.
  - reflexivity.
  - intros H. apply Forall_cons in H as [Hk H].
    unfold row_finding at 1. simpl.
    apply first_match_None in Hk. rewrite Hk. csimpl. apply IH, H.
Qed.

Lemma filter_empty {A} (P : A -> Prop) `{!forall x, Decision (P x)} (l : list A) :
  Forall (fun x => ~ P x) l -> filter P l = [].
Proof.
  induction 1 as [|x l Hx _ IH]; [reflexivity|].
  rewrite filter_cons_False by exact Hx. exact IH.
Qed.

Lemma fmap_filter_sublist {A B} (g : A -> B) (P : A -> Prop)
    `{!forall x, Decision (P x)} (l : list A) :
  sublist (g <$> filter P l) (g <$> l).
Proof.
  induction l as [|x l IH]; [constructor|].
  rewrite filter_cons. destruct (decide (P x)); csimpl; constructor; exact IH.
Qed.

Lemma configured_keywords_nonempty : Forall (fun k => k <> []) configured_keywords.
Proof.
  apply Forall_forall. intros k Hk ->. revert Hk.
  change ([] ∉ configured_keywords).
  apply (bool_decide_unpack _). vm_compute. exact I.
Qed.

(** ** Context windows *)

Lemma length_context_window text text_lower keyword :
  (length (context_window text text_lower keyword) <= 300)%nat.
Proof.
  unfold context_window.
  pose proof (find_lower_bound keyword text_lower) as Hf.
  etransitivity; [apply length_strip|].
  etransitivity; [apply length_slice|]; unfold len; lia.
Qed.

Lemma rev_fmap {A B} (f : A -> B) (l : list A) : rev (f <$> l) = f <$> rev l.
Proof.
  induction l as [|x l IH]; [reflexivity|].
  csimpl. rewrite IH, fmap_app. reflexivity.
Qed.

Lemma solid_ends_fmap (lc : N -> N) (k : list N) :
  forallb (fun c => implb (isspace c) (isspace (lc c))) k = true ->
  solid_ends (lc <$> k) = true -> solid_ends k = true.
Proof.
  intros Hsp. rewrite forallb_forall in Hsp.
  assert (Hc : forall c, In c k -> isspace (lc c) = false -> isspace c = false).
  { intros c Hin Hlc. specialize (Hsp c Hin).
    destruct (isspace c); [|reflexivity]. rewrite Hlc in Hsp. discriminate. }
  unfold solid_ends. rewrite rev_fmap.
  intros H. apply andb_true_iff in H as [H1 H2]. apply andb_true_iff. split.
  - destruct k as [|c k]; [discriminate|]. csimpl in H1.
    apply negb_true_iff in H1. apply negb_true_iff. apply Hc; [left; reflexivity | exact H1].
  - destruct (rev k) as [|d kr] eqn:Er; [discriminate|]. csimpl in H2.
    apply negb_true_iff in H2. apply negb_true_iff. apply Hc; [|exact H2].
    apply in_rev. rewrite Er. left. reflexivity.
Qed.

(** When lower-casing maps the text character by character ([lc]) and
    keeps white space white, the window contains the keyword up to letter
    case. *)
Lemma context_window_keeps (lc : N -> N) text keyword :
  forallb (fun c => implb (isspace c) (isspace (lc c))) text = true ->
  str_in keyword (lc <$> text) = true -> solid_ends keyword = true ->
  (length keyword <= 200)%nat ->
  str_in keyword (lc <$> context_window text (lc <$> text) keyword) = true.
Proof.
  intros Hsp Hin Hsolid Hlen.
  destruct (find_spec _ _ Hin) as (pre & post & Htext & Hfind & _).
  apply fmap_app_inv in Htext as (pre0 & rest & -> & Hrest & ->).
  symmetry in Hrest.
  apply fmap_app_inv in Hrest as (k0 & post0 & -> & -> & ->).
  unfold context_window. rewrite Hfind.
  rewrite length_fmap in Hlen.
  destruct (slice_keeps pre0 k0 post0
              (Z.max 0 (len (lc <$> pre0) - 100))
              (Z.min (len (pre0 ++ k0 ++ post0)) (len (lc <$> pre0) + 200)))
    as (pre' & post' & ->).
  - unfold len. rewrite length_fmap. lia.
  - unfold len. rewrite length_fmap, !length_app. lia.
  - assert (Hk0 : solid_ends k0 = true).
    { apply (solid_ends_fmap lc); [|exact Hsolid].
      rewrite !forallb_app in Hsp.
      apply andb_true_iff in Hsp as [_ Hsp].
      apply andb_true_iff in Hsp as [Hsp _]. exact Hsp. }
    destruct (strip_keeps pre' k0 post' Hk0) as (a & b & ->).
    rewrite !fmap_app. apply str_in_app.
Qed.

Lemma configured_keywords_solid :
  Forall (fun k => solid_ends k = true /\ (length k <= 200)%nat)
         configured_keywords.
Proof.
  apply Forall_forall. intros k Hk.
  assert (H : forallb (fun k => solid_ends k && (length k <=? 200)%nat)
                configured_keywords = true) by (vm_compute; reflexivity).
  rewrite forallb_forall in H. specialize (H k (proj1 (list_elem_of_In _ _) Hk)).
  apply andb_true_iff in H as [H1 H2]. apply Nat.leb_le in H2. auto.
Qed.

Lemma first_match_elem text_lower keywords keyword :
  first_match text_lower keywords = Some keyword ->
  keyword ∈ keywords /\ str_in keyword text_lower = true.
Proof.
  intros H. apply first_match_Some in H as (pre & post & -> & _ & Hin).
  split; [|exact Hin]. apply elem_of_app. right. apply elem_of_cons. auto.
Qed.

Lemma row_keyword_configured (table : list (list N * list (list N)))
    type keywords keyword :
  (type, keywords) ∈ table -> keyword ∈ keywords ->
  keyword ∈ concat table.*2.
Proof.
  intros Hrow Hk. apply list_elem_of_In, in_concat. exists keywords. split.
  - apply list_elem_of_In, list_elem_of_fmap. exists (type, keywords). auto.
  - apply list_elem_of_In, Hk.
Qed.

(** ** The excerpt *)

Lemma slice_prefix (s : list N) (n : Z) :
  0 <= n -> slice s 0 n = take (Z.to_nat n) s.
Proof.
  intros Hn. unfold slice, adjust_index, len.
  destruct (Z.ltb_spec 0 0); [lia|]. destruct (Z.ltb_spec n 0); [lia|].
  rewrite (Z.min_l 0) by lia. change (Z.to_nat 0) with 0%nat.
  rewrite drop_0, Z.sub_0_r.
  destruct (Z.le_ge_cases n (Z.of_nat (length s))).
  - rewrite Z.min_l by lia. reflexivity.
  - rewrite Z.min_r by lia. rewrite !take_ge by lia. reflexivity.
Qed.

Lemma excerpt_long (text : list N) :
  len text > 2000 -> excerpt text = take 2000 text ++ U "...".
Proof.
  intros H. unfold excerpt. apply Z.gtb_gt in H. rewrite H.
  rewrite slice_prefix by lia. reflexivity.
Qed.

Lemma excerpt_short (text : list N) :
  len text <= 2000 -> excerpt text = text.
Proof.
  intros H. unfold excerpt.
  destruct (len text >? 2000) eqn:E; [|reflexivity].
  apply Z.gtb_gt in E. lia.
Qed.

(** ** The responder *)

Lemma listing_shape head otherwise k1 k2 findings answer :
  listing head otherwise k1 k2 findings = Ok answer ->
  (exists body, answer = head ++ body) \/ answer = otherwise.
Proof.
  unfold listing. destruct (map_result (bullet k1 k2) findings) as [lines|e];
    simpl; [|discriminate].
  destruct (join NL lines) as [|c body]; intros [= <-]; eauto.
Qed.

Lemma store_ok_empty lower upper : store_ok lower upper empty_store.
Proof. intros id document H. simpl in H. rewrite lookup_empty in H. discriminate. Qed.

Lemma store_ok_store_analysis lower upper analysis st :
  from_analyzer lower upper analysis -> store_ok lower upper st ->
  store_ok lower upper (store_analysis analysis st).
Proof.
  intros Ha Hst id document. unfold store_analysis. simpl.
  rewrite lookup_insert. case_decide.
  - intros [= <-]. exact Ha.
  - apply Hst.
Qed.

(** * The claims *)

Section Claims.
  Variable lower upper : list N -> list N.

(** C1: the rating of the analysis is [рискован] when some extracted risk
    has severity [высокий]; otherwise [требует внимания] when there is a
    risk at all; otherwise [безопасен].  In particular a text in which a
    severe keyword is found (by the matching of line 145, on the lower-cased
    copy) is rated [рискован], whatever its benefits and unclear terms; so
    is a text that contains the keyword as it is written, when lower-casing
    maps the text character by character. *)
Theorem rating_follows_risk_severity text filename uuid4 now :
  exists analysis,
    analyze_document lower upper text filename uuid4 now = Ok analysis /\
    risks analysis = extract_risks lower text /\
    ((exists r, r ∈ risks analysis /\
                dict_get r (U "severity") = Some HIGH) ->
     overall_rating analysis = RISKY) /\
    ((forall r, r ∈ risks analysis ->
                dict_get r (U "severity") <> Some HIGH) ->
     risks analysis <> [] ->
     overall_rating analysis = NEEDS_ATTENTION) /\
    (risks analysis = [] -> overall_rating analysis = SAFE) /\
    (forall keyword,
       severe_keyword keyword -> str_in keyword (lower text) = true ->
       overall_rating analysis = RISKY) /\
    (forall keyword (lc : N -> N),
       severe_keyword keyword -> str_in keyword text = true ->
       lower text = lc <$> text -> Forall (fun c => lc c = c) keyword ->
       overall_rating analysis = RISKY).
Proof.
  destruct (analyze_document_returns lower upper text filename uuid4 now)
    as [s Hs].
  eexists. split; [exact Hs|]. cbn [risks overall_rating].
  assert (Hfound : forall keyword,
            severe_keyword keyword -> str_in keyword (lower text) = true ->
            rate (extract_risks lower text) = RISKY).
  { intros keyword Hk Hin.
    destruct (severe_keyword_first _ Hk) as (ty & rest & Hrow).
    apply (rate_severe _ (risk_finding text (lower text) ty keyword)).
    - apply elem_of_extract_risks. exists ty, (keyword :: rest), keyword.
      split; [exact Hrow|]. split; [|reflexivity].
      simpl. rewrite Hin. reflexivity.
    - unfold severe. rewrite risk_severity.
      destruct Hk as [-> _]. reflexivity. }
  split; [reflexivity|]. split; [|split; [|split; [|split]]].
  - intros (r & Hin & Hsev). exact (rate_severe _ r Hin Hsev).
  - intros Hnone Hne. apply rate_not_severe; assumption.
  - intros ->. reflexivity.
  - exact Hfound.
  - intros keyword lc Hk Hin Hlc Hfix. apply (Hfound keyword Hk).
    rewrite Hlc. apply str_in_fmap; assumption.
Qed.

(** C2, amended: the context of every finding (risk, benefit or unclear
    term) is [text[max(0, start-100) : min(len(text), start+200)]] stripped
    of white space at both ends, where [start] is the index of the first
    occurrence of the recorded keyword in the lower-cased text; it is at
    most 300 characters long.  The window is cut out of the original text:
    it contains the keyword up to letter case (the keyword occurs in the
    lower-cased window) whenever lower-casing maps the text character by
    character, white space to white space; in particular it contains the
    keyword itself when the text is already in lower case. *)
Theorem context_is_window_around_keyword text finding :
  finding ∈ extract_risks lower text ++ extract_benefits lower text
            ++ extract_unclear lower text ->
  exists keyword context,
    (dict_get finding (U "keyword") = Some keyword \/
     dict_get finding (U "phrase") = Some keyword) /\
    dict_get finding (U "context") = Some context /\
    (exists pre post,
       lower text = pre ++ keyword ++ post /\
       find keyword (lower text) = len pre /\
       forall j, (j < length pre)%nat ->
                 is_prefix keyword (drop j (lower text)) = false) /\
    context
    = strip (slice text (Z.max 0 (find keyword (lower text) - 100))
                        (Z.min (len text) (find keyword (lower text) + 200))) /\
    (length context <= 300)%nat /\
    (forall lc : N -> N,
       lower text = lc <$> text ->
       forallb (fun c => implb (isspace c) (isspace (lc c))) text = true ->
       str_in keyword (lc <$> context) = true) /\
    (lower text = text -> str_in keyword context = true).
Proof.
  intros Hin.
  assert (exists keyword,
            keyword ∈ configured_keywords /\
            str_in keyword (lower text) = true /\
            (dict_get finding (U "keyword") = Some keyword \/
             dict_get finding (U "phrase") = Some keyword) /\
            dict_get finding (U "context")
            = Some (context_window text (lower text) keyword))
    as (keyword & Hconf & Hocc & Hkey & Hctx).
  { unfold configured_keywords.
    apply elem_of_app in Hin as [Hin|Hin]; [|apply elem_of_app in Hin as [Hin|Hin]].
    - apply elem_of_extract_risks in Hin as (ty & kws & kw & Hrow & Hfm & ->).
      apply first_match_elem in Hfm as [Hk Hocc]. exists kw.
      split; [|split; [exact Hocc|split; [left; reflexivity | reflexivity]]].
      apply elem_of_app. left. eapply row_keyword_configured; eassumption.
    - apply elem_of_extract_benefits in Hin as (ty & kws & kw & Hrow & Hfm & ->).
      apply first_match_elem in Hfm as [Hk Hocc]. exists kw.
      split; [|split; [exact Hocc|split; [left; reflexivity | reflexivity]]].
      apply elem_of_app. right. apply elem_of_app. left.
      eapply row_keyword_configured; eassumption.
    - apply elem_of_extract_unclear in Hin as (p & Hp & Hocc & ->). exists p.
      split; [|split; [exact Hocc|split; [right; reflexivity | reflexivity]]].
      apply elem_of_app. right. apply elem_of_app. right. exact Hp. }
  exists keyword, (context_window text (lower text) keyword).
  split; [exact Hkey|]. split; [exact Hctx|].
  split; [apply find_spec, Hocc|]. split; [reflexivity|].
  split; [apply length_context_window|].
  pose proof configured_keywords_solid as Hs.
  rewrite Forall_forall in Hs. destruct (Hs _ Hconf) as [Hsolid Hlen].
  assert (Hcased : forall lc : N -> N,
            lower text = lc <$> text ->
            forallb (fun c => implb (isspace c) (isspace (lc c))) text = true ->
            str_in keyword (lc <$> context_window text (lower text) keyword)
            = true).
  { intros lc Hlc Hsp. rewrite Hlc in *. apply context_window_keeps; assumption. }
  split; [exact Hcased|].
  intros Hlow. specialize (Hcased id). rewrite !list_fmap_id in Hcased.
  apply Hcased; [exact Hlow|].
  apply forallb_forall. intros c _. unfold id. destruct (isspace c); reflexivity.
Qed.

(** C3: every risk subtype and every benefit subtype contributes at most
    one finding.  The keywords of the subtype are tried in the order of the
    table; the first one found in the lower-cased text is recorded and the
    others are not looked at, so a text with two keywords of one subtype
    yields exactly one finding of that subtype, for the keyword that comes
    first in the table; a subtype none of whose keywords occurs yields
    none. *)
Theorem one_finding_per_subtype text type keywords :
  ((type, keywords) ∈ risk_patterns ->
   let found := filter (has_type type) (extract_risks lower text) in
   (length found <= 1)%nat /\
   (forall pre keyword post,
      keywords = pre ++ keyword :: post ->
      Forall (fun k => str_in k (lower text) = false) pre ->
      str_in keyword (lower text) = true ->
      found = [risk_finding text (lower text) type keyword]) /\
   (Forall (fun k => str_in k (lower text) = false) keywords -> found = [])) /\
  ((type, keywords) ∈ benefit_patterns ->
   let found := filter (has_type type) (extract_benefits lower text) in
   (length found <= 1)%nat /\
   (forall pre keyword post,
      keywords = pre ++ keyword :: post ->
      Forall (fun k => str_in k (lower text) = false) pre ->
      str_in keyword (lower text) = true ->
      found = [benefit_finding text (lower text) type keyword]) /\
   (Forall (fun k => str_in k (lower text) = false) keywords -> found = [])).
Proof.
  split; intros Hrow found; subst found.
  - rewrite extract_risks_spec.
    rewrite (filter_type_row _ (risk_type text (lower text)) _ _ _ _
               risk_types_distinct Hrow).
    split; [|split].
    + destruct (first_match (lower text) keywords); simpl; lia.
    + intros pre keyword post Hk Hpre Hocc.
      replace (first_match (lower text) keywords) with (Some keyword);
        [reflexivity|].
      symmetry. apply first_match_Some. eauto.
    + intros Hnone. apply first_match_None in Hnone. rewrite Hnone. reflexivity.
  - rewrite extract_benefits_spec.
    rewrite (filter_type_row _ (benefit_type text (lower text)) _ _ _ _
               benefit_types_distinct Hrow).
    split; [|split].
    + destruct (first_match (lower text) keywords); simpl; lia.
    + intros pre keyword post Hk Hpre Hocc.
      replace (first_match (lower text) keywords) with (Some keyword);
        [reflexivity|].
      symmetry. apply first_match_Some. eauto.
    + intros Hnone. apply first_match_None in Hnone. rewrite Hnone. reflexivity.
Qed.

(** C4, amended: the stored excerpt [text_content] is the first 2000
    characters of the text followed by the marker [...] when the text is
    longer than 2000 characters, and the text unchanged otherwise; it is at
    most 2000 characters plus the marker long.  The marker is appended if
    and only if the text was cut (an uncut text that ends with three dots of
    its own is stored as it is). *)
Theorem excerpt_truncates_at_2000 text filename uuid4 now :
  exists analysis,
    analyze_document lower upper text filename uuid4 now = Ok analysis /\
    (len text > 2000 -> text_content analysis = take 2000 text ++ U "...") /\
    (len text <= 2000 -> text_content analysis = text) /\
    (length (text_content analysis) <= 2000 + length (U "..."))%nat /\
    (text_content analysis = take 2000 text ++ U "..." <-> len text > 2000) /\
    (len text > 2000 -> ends_with (U "...") (text_content analysis)).
Proof.
  destruct (analyze_document_returns lower upper text filename uuid4 now)
    as [s Hs].
  eexists. split; [exact Hs|]. cbn [text_content].
  split; [apply excerpt_long|]. split; [apply excerpt_short|].
  split; [|split].
  - destruct (Z.le_gt_cases (len text) 2000) as [H|H].
    + rewrite excerpt_short by exact H. unfold len in H. lia.
    + rewrite excerpt_long by lia. rewrite length_app, length_take. lia.
  - split; [|apply excerpt_long].
    intros Heq. destruct (Z.le_gt_cases (len text) 2000) as [H|H]; [|lia].
    rewrite excerpt_short in Heq by exact H.
    apply (f_equal length) in Heq. rewrite length_app, length_take in Heq.
    unfold len in H. change (length (U "...")) with 3%nat in Heq. lia.
  - intros H. rewrite excerpt_long by exact H. eexists. reflexivity.
Qed.

(** C5: the responder tests the lower-cased question against the five
    keyword families in the fixed order risk, benefit, ambiguity, decision,
    fallback, and renders the template of the first family that matches and
    of no other; a question that matches both the risk and the benefit
    family is answered with the risk template (which no benefit answer
    equals). *)
Theorem chat_answer_by_priority document question :
  let q := lower question in
  (any_in risk_words q = true ->
   chat_answer lower document question = risk_answer document) /\
  (any_in risk_words q = false -> any_in benefit_words q = true ->
   chat_answer lower document question = benefit_answer document) /\
  (any_in risk_words q = false -> any_in benefit_words q = false ->
   any_in unclear_words q = true ->
   chat_answer lower document question = unclear_answer document) /\
  (any_in risk_words q = false -> any_in benefit_words q = false ->
   any_in unclear_words q = false -> any_in decision_words q = true ->
   chat_answer lower document question = Ok (decision_answer document)) /\
  (any_in risk_words q = false -> any_in benefit_words q = false ->
   any_in unclear_words q = false -> any_in decision_words q = false ->
   chat_answer lower document question = Ok (fallback_answer document)) /\
  (any_in risk_words q = true -> any_in benefit_words q = true ->
   chat_answer lower document question = risk_answer document /\
   forall a b, risk_answer document = Ok a -> benefit_answer document = Ok b ->
               a <> b).
Proof.
  intros q. subst q. unfold chat_answer.
  repeat split; intros; repeat match goal with
  | H : any_in _ _ = _ |- _ => rewrite H; clear H
  end; try reflexivity.
  intros Heq. subst b.
  match goal with
  | Ha : risk_answer _ = Ok _, Hb : benefit_answer _ = Ok _ |- _ =>
    apply listing_shape in Ha as [[x Ha]| Ha];
    apply listing_shape in Hb as [[y Hb]| Hb];
    rewrite Ha in Hb; apply (f_equal (take 1)) in Hb;
    vm_compute in Hb; discriminate Hb
  end.
Qed.

(** C6: a chat request for a document id that is not in
    [documents_storage] fails with [HTTPException(404, "Документ не
    найден")], and both stores, the chat history in particular, are left as
    they were: no exchange is appended anywhere. *)
Theorem chat_unknown_document message now st :
  documents_storage st !! ChatMessage.document_id message = None ->
  chat_with_document lower message now st
  = (Raise (HTTPException 404 (U "Документ не найден")), st).
Proof. intros H. unfold chat_with_document. rewrite H. reflexivity. Qed.

(** C7: the three-branch rating of lines 212-219 is extensionally the
    two-tier rule of the specification (a severe risk makes the document
    [рискован]; otherwise any risk makes it [требует внимания]; otherwise it
    is [безопасен]).  The branch [risk_count > 3] never changes the
    outcome. *)
Theorem rate_refines_simplified (risks : list (list (list N * list N))) :
  rate risks = rate_simplified risks.
Proof.
  unfold rate, rate_simplified.
  change (fun r => dict_get r (U "severity") = Some HIGH) with severe.
  change (fun r => bool_decide (dict_get r (U "severity") = Some HIGH))
    with (fun r => bool_decide (severe r)).
  rewrite severe_count_positive.
  destruct (existsb _ risks) eqn:Esevere; [reflexivity|].
  destruct risks as [|r risks]; [reflexivity|].
  unfold len. simpl length.
  destruct (Z.of_nat (S (length risks)) >? 3) eqn:Emany; [reflexivity|].
  replace (Z.of_nat (S (length risks)) >? 0) with true; [reflexivity|].
  symmetry. apply Z.gtb_gt. lia.
Qed.

(** C8: when none of the configured keywords and phrases is found in the
    lower-cased text, the three lists of findings are empty and the rating
    is [безопасен]; the analyzer returns a record, not an error.  The empty
    text is such an input (the lower case of the empty string is empty). *)
Theorem no_keyword_no_finding :
  (forall text filename uuid4 now,
     Forall (fun k => str_in k (lower text) = false) configured_keywords ->
     exists analysis,
       analyze_document lower upper text filename uuid4 now = Ok analysis /\
       risks analysis = [] /\ benefits analysis = [] /\
       unclear_terms analysis = [] /\
       overall_rating analysis = SAFE) /\
  (lower [] = [] ->
   forall filename uuid4 now,
     exists analysis,
       analyze_document lower upper [] filename uuid4 now = Ok analysis /\
       risks analysis = [] /\ benefits analysis = [] /\
       unclear_terms analysis = [] /\
       overall_rating analysis = SAFE).
Proof.
  assert (Hmain : forall text filename uuid4 now,
     Forall (fun k => str_in k (lower text) = false) configured_keywords ->
     exists analysis,
       analyze_document lower upper text filename uuid4 now = Ok analysis /\
       risks analysis = [] /\ benefits analysis = [] /\
       unclear_terms analysis = [] /\
       overall_rating analysis = SAFE).
  { intros text filename uuid4 now Hnone.
    destruct (analyze_document_returns lower upper text filename uuid4 now)
      as [s Hs].
    eexists. split; [exact Hs|]. cbn [risks benefits unclear_terms overall_rating].
    unfold configured_keywords in Hnone.
    apply Forall_app in Hnone as [Hr Hnone].
    apply Forall_app in Hnone as [Hb Hu].
    assert (Er : extract_risks lower text = []).
    { rewrite extract_risks_spec. apply scan_rows_empty, Hr. }
    assert (Eb : extract_benefits lower text = []).
    { rewrite extract_benefits_spec. apply scan_rows_empty, Hb. }
    assert (Eu : extract_unclear lower text = []).
    { rewrite extract_unclear_spec, filter_empty; [reflexivity|].
      eapply Forall_impl; [exact Hu|]. intros k Hk. simpl in Hk. congruence. }
    rewrite Er, Eb, Eu. repeat split; reflexivity. }
  split; [exact Hmain|].
  intros Hnil filename uuid4 now. apply Hmain. rewrite Hnil.
  eapply Forall_impl; [apply configured_keywords_nonempty|].
  intros k Hk. apply str_in_nil, Hk.
Qed.

(** C9: the analyzer returns a record for every text, the empty one and
    texts under the 50-character floor included, and never raises; the
    responder returns an answer for every record the analyzer built and
    every question; hence a chat request for a stored document succeeds
    whenever the store holds records of the analyzer only, and it keeps the
    store so. *)
Theorem analyzer_and_responder_total :
  (forall text filename uuid4 now,
     returns (analyze_document lower upper text filename uuid4 now)) /\
  (forall document question,
     from_analyzer lower upper document ->
     returns (chat_answer lower document question)) /\
  (forall st message now,
     store_ok lower upper st ->
     is_Some (documents_storage st !! ChatMessage.document_id message) ->
     exists response st',
       chat_with_document lower message now st = (Ok response, st') /\
       store_ok lower upper st').
Proof.
  split; [|split].
  - intros text filename uuid4 now.
    destruct (analyze_document_returns lower upper text filename uuid4 now)
      as [s Hs].
    eexists. exact Hs.
  - apply chat_answer_returns.
  - intros st message now Hok [document Hdoc].
    unfold chat_with_document. rewrite Hdoc.
    destruct (chat_answer_returns lower upper document
                (ChatMessage.question message)) as [answer ->].
    + eapply Hok, Hdoc.
    + eexists _, _. split; [reflexivity|]. exact Hok.
Qed.

(** C10: whatever the text, there are at most 5 risks (one per risk
    subtype), at most 4 benefits (one per benefit subtype) and at most 9
    unclear terms (one per configured phrase, each with the context window
    of the first occurrence of the phrase); no subtype and no phrase is
    recorded twice, and each list follows the order of its table. *)
Theorem findings_bounded_by_tables text :
  (length (extract_risks lower text) <= 5)%nat /\
  (length (extract_benefits lower text) <= 4)%nat /\
  (length (extract_unclear lower text) <= 9)%nat /\
  sublist ((fun f => dict_get f (U "type")) <$> extract_risks lower text)
          (Some <$> risk_patterns.*1) /\
  sublist ((fun f => dict_get f (U "type")) <$> extract_benefits lower text)
          (Some <$> benefit_patterns.*1) /\
  sublist ((fun f => dict_get f (U "phrase")) <$> extract_unclear lower text)
          (Some <$> unclear_patterns) /\
  NoDup ((fun f => dict_get f (U "type")) <$> extract_risks lower text) /\
  NoDup ((fun f => dict_get f (U "type")) <$> extract_benefits lower text) /\
  NoDup ((fun f => dict_get f (U "phrase")) <$> extract_unclear lower text) /\
  extract_unclear lower text
  = unclear_finding text (lower text)
    <$> filter (fun p => str_in p (lower text) = true) unclear_patterns.
Proof.
  assert (Hr : sublist ((fun f => dict_get f (U "type")) <$> extract_risks lower text)
                       (Some <$> risk_patterns.*1)).
  { rewrite extract_risks_spec, <- list_fmap_compose. apply omap_sublist.
    intros [ty kws] f. unfold row_finding. simpl.
    destruct (first_match (lower text) kws); [|discriminate].
    intros [= <-]. reflexivity. }
  assert (Hb : sublist ((fun f => dict_get f (U "type")) <$> extract_benefits lower text)
                       (Some <$> benefit_patterns.*1)).
  { rewrite extract_benefits_spec, <- list_fmap_compose. apply omap_sublist.
    intros [ty kws] f. unfold row_finding. simpl.
    destruct (first_match (lower text) kws); [|discriminate].
    intros [= <-]. reflexivity. }
  assert (Hu : sublist ((fun f => dict_get f (U "phrase")) <$> extract_unclear lower text)
                       (Some <$> unclear_patterns)).
  { rewrite extract_unclear_spec, <- list_fmap_compose.
    rewrite (list_fmap_ext Some
               ((fun f => dict_get f (U "phrase")) ∘ unclear_finding text (lower text))
               unclear_patterns) by reflexivity.
    apply fmap_filter_sublist. }
  repeat split; try assumption.
  - apply sublist_length in Hr. rewrite !length_fmap in Hr. exact Hr.
  - apply sublist_length in Hb. rewrite !length_fmap in Hb. exact Hb.
  - apply sublist_length in Hu. rewrite !length_fmap in Hu. exact Hu.
  - eapply sublist_NoDup; [|exact Hr].
    apply (NoDup_fmap_2 Some), risk_types_distinct.
  - eapply sublist_NoDup; [|exact Hb].
    apply (NoDup_fmap_2 Some), benefit_types_distinct.
  - eapply sublist_NoDup; [|exact Hu].
    apply (NoDup_fmap_2 Some), unclear_phrases_distinct.
  - apply extract_unclear_spec.
Qed.

End Claims.

(** * Concrete runs *)

Lemma sample_analysis_built :
  analyze_document lower_sample upper_sample penalty_text
    (U "contract.txt") (U "doc-1") (U "2024-01-01T00:00:00")
  = Ok sample_analysis.
Proof. vm_compute. reflexivity. Qed.

Lemma sample_analysis_from_analyzer :
  from_analyzer lower_sample upper_sample sample_analysis.
Proof. eexists _, _, _, _. exact sample_analysis_built. Qed.

Lemma sample_store_lookup (id : list N) :
  documents_storage sample_store !! id
  = if bool_decide (U "doc-1" = id) then Some sample_analysis else None.
Proof.
  unfold sample_store, store_analysis. cbn [documents_storage empty_store].
  replace (document_id sample_analysis) with (U "doc-1")
    by (vm_compute; reflexivity).
  rewrite lookup_insert. rewrite lookup_empty.
  destruct (decide (U "doc-1" = id)) as [E|E].
  - rewrite (bool_decide_eq_true_2 _ E). reflexivity.
  - rewrite (bool_decide_eq_false_2 _ E). reflexivity.
Qed.

Lemma shtraf_severe : severe_keyword (U "штраф").
Proof.
  split; [vm_compute; reflexivity|].
  eexists _, _. split; [left; reflexivity | left; reflexivity].
Qed.

(** The end-to-end text of the specification is rated [рискован]. *)
Lemma rating_of_penalty_text :
  exists analysis,
    analyze_document lower_sample upper_sample penalty_text
      (U "contract.txt") (U "doc-1") (U "2024-01-01T00:00:00") = Ok analysis /\
    str_in (U "штраф") (lower_sample penalty_text) = true /\
    overall_rating analysis = RISKY.
Proof.
  destruct (rating_follows_risk_severity lower_sample upper_sample penalty_text
              (U "contract.txt") (U "doc-1") (U "2024-01-01T00:00:00"))
    as (a & Ha & _ & _ & _ & _ & Hk & _).
  exists a. split; [exact Ha|]. split; [vm_compute; reflexivity|].
  apply (Hk (U "штраф")); [exact shtraf_severe | vm_compute; reflexivity].
Defined.

(** A clause in capital letters: the keyword [штраф] is found in the
    lower-cased copy, the context is cut out of the original text and does
    not contain the keyword. *)
Lemma context_misses_shouted_keyword :
  exists finding keyword context,
    finding ∈ extract_risks lower_sample shouted_text /\
    dict_get finding (U "keyword") = Some keyword /\
    dict_get finding (U "context") = Some context /\
    context = shouted_text /\
    str_in keyword context = false.
Proof.
  exists (risk_finding shouted_text (lower_sample shouted_text)
            (U "штрафные санкции") (U "штраф")), (U "штраф"), shouted_text.
  split; [|repeat split; vm_compute; reflexivity].
  apply list_elem_of_In. vm_compute. left. reflexivity.
Qed.

(** Where lower-casing changes the length of the text, the index found in
    the lower-cased copy points elsewhere in the original: here beyond its
    end, and the context is empty. *)
Example context_window_shifted :
  len dotted_text = 168 /\
  find (U "штраф") (lower_sample dotted_text) = 300 /\
  exists finding,
    extract_risks lower_sample dotted_text = [finding] /\
    dict_get finding (U "keyword") = Some (U "штраф") /\
    dict_get finding (U "context") = Some [].
Proof.
  split; [vm_compute; reflexivity|]. split; [vm_compute; reflexivity|].
  eexists. split; [vm_compute; reflexivity|].
  split; vm_compute; reflexivity.
Qed.

(** The clause in capital letters again: lower-casing maps it letter by
    letter, and its context contains the keyword up to letter case. *)
Lemma context_of_shouted_text :
  let finding := risk_finding shouted_text (lower_sample shouted_text)
                   (U "штрафные санкции") (U "штраф") in
  finding ∈ extract_risks lower_sample shouted_text
            ++ extract_benefits lower_sample shouted_text
            ++ extract_unclear lower_sample shouted_text /\
  lower_sample shouted_text = lower_letter <$> shouted_text /\
  exists keyword context,
    dict_get finding (U "context") = Some context /\
    (length context <= 300)%nat /\
    str_in keyword (lower_letter <$> context) = true.
Proof.
  intros finding.
  assert (Hin : finding ∈ extract_risks lower_sample shouted_text
                          ++ extract_benefits lower_sample shouted_text
                          ++ extract_unclear lower_sample shouted_text).
  { apply list_elem_of_In. vm_compute. left. reflexivity. }
  assert (Hlow : lower_sample shouted_text = lower_letter <$> shouted_text)
    by (vm_compute; reflexivity).
  split; [exact Hin|]. split; [exact Hlow|].
  destruct (context_is_window_around_keyword lower_sample shouted_text finding Hin)
    as (keyword & context & _ & Hctx & _ & _ & Hlen & Hcased & _).
  exists keyword, context. split; [exact Hctx|]. split; [exact Hlen|].
  apply Hcased; [exact Hlow | vm_compute; reflexivity].
Defined.

(** Two keywords of the subtype [штрафные санкции]: only [штраф], the first
    of the table, is recorded. *)
Lemma one_finding_for_two_keywords :
  (U "штрафные санкции",
   [U "штраф"; U "пеня"; U "неустойка"; U "санкции"]) ∈ risk_patterns /\
  str_in (U "пеня") (lower_sample two_keyword_text) = true /\
  str_in (U "штраф") (lower_sample two_keyword_text) = true /\
  filter (has_type (U "штрафные санкции"))
         (extract_risks lower_sample two_keyword_text)
  = [risk_finding two_keyword_text (lower_sample two_keyword_text)
       (U "штрафные санкции") (U "штраф")].
Proof.
  assert (Hrow : (U "штрафные санкции",
                  [U "штраф"; U "пеня"; U "неустойка"; U "санкции"])
                 ∈ risk_patterns) by (apply list_elem_of_In; left; reflexivity).
  split; [exact Hrow|]. split; [vm_compute; reflexivity|].
  split; [vm_compute; reflexivity|].
  destruct (one_finding_per_subtype lower_sample two_keyword_text
              (U "штрафные санкции")
              [U "штраф"; U "пеня"; U "неустойка"; U "санкции"])
    as [Hrisk _].
  destruct (Hrisk Hrow) as (_ & Hfirst & _).
  apply (Hfirst [] (U "штраф") [U "пеня"; U "неустойка"; U "санкции"]).
  - reflexivity.
  - constructor.
  - vm_compute. reflexivity.
Defined.

(** A text of at most 2000 characters that ends with three dots: the
    excerpt ends with the marker although nothing was cut. *)
Lemma marker_present_without_truncation :
  exists analysis,
    analyze_document lower_sample upper_sample ellipsis_text
      (U "contract.txt") (U "doc-1") (U "2024-01-01T00:00:00") = Ok analysis /\
    text_content analysis = ellipsis_text /\
    ends_with (U "...") (text_content analysis) /\
    ~ len ellipsis_text > 2000.
Proof.
  destruct (analyze_document_returns lower_sample upper_sample ellipsis_text
              (U "contract.txt") (U "doc-1") (U "2024-01-01T00:00:00"))
    as [s Hs].
  eexists. split; [exact Hs|]. cbn [text_content].
  split; [vm_compute; reflexivity|]. split.
  - exists (take (length ellipsis_text - 3) ellipsis_text).
    vm_compute. reflexivity.
  - vm_compute. discriminate.
Qed.

(** A text of 2001 characters is cut to 2000 and marked. *)
Lemma excerpt_of_long_text :
  len long_text > 2000 /\
  exists analysis,
    analyze_document lower_sample upper_sample long_text
      (U "contract.txt") (U "doc-1") (U "2024-01-01T00:00:00") = Ok analysis /\
    text_content analysis = repeat 97%N 2000 ++ U "...".
Proof.
  assert (Hlong : len long_text > 2000) by (vm_compute; reflexivity).
  split; [exact Hlong|].
  destruct (excerpt_truncates_at_2000 lower_sample upper_sample long_text
              (U "contract.txt") (U "doc-1") (U "2024-01-01T00:00:00"))
    as (a & Ha & Hcut & _).
  exists a. split; [exact Ha|]. rewrite (Hcut Hlong). vm_compute. reflexivity.
Defined.

(** A question with a risk word and a benefit word gets the risk answer. *)
Lemma risk_family_wins :
  any_in risk_words (lower_sample both_question) = true /\
  any_in benefit_words (lower_sample both_question) = true /\
  chat_answer lower_sample sample_analysis both_question
  = risk_answer sample_analysis.
Proof.
  assert (H1 : any_in risk_words (lower_sample both_question) = true)
    by (vm_compute; reflexivity).
  assert (H2 : any_in benefit_words (lower_sample both_question) = true)
    by (vm_compute; reflexivity).
  split; [exact H1|]. split; [exact H2|].
  destruct (chat_answer_by_priority lower_sample sample_analysis both_question)
    as (_ & _ & _ & _ & _ & Hboth).
  exact (proj1 (Hboth H1 H2)).
Defined.

(** A chat request for an id that was never stored. *)
Lemma chat_with_missing_document :
  documents_storage sample_store !! U "doc-2" = None /\
  chat_with_document lower_sample
    {| ChatMessage.document_id := U "doc-2";
       ChatMessage.question := U "какие риски?" |}
    (U "2024-01-01T00:05:00") sample_store
  = (Raise (HTTPException 404 (U "Документ не найден")), sample_store).
Proof.
  assert (H : documents_storage sample_store !! U "doc-2" = None).
  { rewrite sample_store_lookup. reflexivity. }
  split; [exact H|].
  exact (chat_unknown_document lower_sample
           {| ChatMessage.document_id := U "doc-2";
              ChatMessage.question := U "какие риски?" |}
           (U "2024-01-01T00:05:00") sample_store H).
Defined.

(** Lower-cased text without any keyword, and the empty text. *)
Lemma neutral_and_empty_text_safe :
  Forall (fun k => str_in k (lower_sample neutral_text) = false)
         configured_keywords /\
  lower_sample [] = [] /\
  (exists analysis,
     analyze_document lower_sample upper_sample neutral_text
       (U "contract.txt") (U "doc-1") (U "2024-01-01T00:00:00") = Ok analysis /\
     overall_rating analysis = SAFE) /\
  (exists analysis,
     analyze_document lower_sample upper_sample []
       (U "contract.txt") (U "doc-1") (U "2024-01-01T00:00:00") = Ok analysis /\
     risks analysis = [] /\ overall_rating analysis = SAFE).
Proof.
  assert (H : Forall (fun k => str_in k (lower_sample neutral_text) = false)
                     configured_keywords).
  { apply (bool_decide_unpack _). vm_compute. exact I. }
  split; [exact H|]. split; [reflexivity|].
  destruct (no_keyword_no_finding lower_sample upper_sample) as [Hany Hempty].
  split.
  - destruct (Hany neutral_text (U "contract.txt") (U "doc-1")
                (U "2024-01-01T00:00:00") H) as (a & Ha & _ & _ & _ & Hsafe).
    exists a. auto.
  - destruct (Hempty eq_refl (U "contract.txt") (U "doc-1")
                (U "2024-01-01T00:00:00")) as (a & Ha & Hr & _ & _ & Hsafe).
    exists a. auto.
Defined.

(** A chat request for the stored sample document succeeds. *)
Lemma chat_with_stored_document :
  store_ok lower_sample upper_sample sample_store /\
  is_Some (documents_storage sample_store !! U "doc-1") /\
  returns (analyze_document lower_sample upper_sample []
             (U "contract.txt") (U "doc-1") (U "2024-01-01T00:00:00")) /\
  exists response st',
    chat_with_document lower_sample
      {| ChatMessage.document_id := U "doc-1";
         ChatMessage.question := U "какие риски?" |}
      (U "2024-01-01T00:05:00") sample_store
    = (Ok response, st').
Proof.
  assert (Hok : store_ok lower_sample upper_sample sample_store).
  { apply store_ok_store_analysis;
      [exact sample_analysis_from_analyzer | apply store_ok_empty]. }
  assert (Hin : is_Some (documents_storage sample_store !! U "doc-1")).
  { exists sample_analysis. rewrite sample_store_lookup. reflexivity. }
  destruct (analyzer_and_responder_total lower_sample upper_sample)
    as (Htotal & _ & Hchat).
  split; [exact Hok|]. split; [exact Hin|]. split; [apply Htotal|].
  destruct (Hchat sample_store
              {| ChatMessage.document_id := U "doc-1";
                 ChatMessage.question := U "какие риски?" |}
              (U "2024-01-01T00:05:00") Hok Hin) as (r & st' & Hr & _).
  exists r, st'. exact Hr.
Defined.

(** ** The end-to-end scenarios of the specification *)

Example scenario_penalty :
  exists finding,
    risks sample_analysis = [finding] /\
    dict_get finding (U "type") = Some (U "штрафные санкции") /\
    dict_get finding (U "keyword") = Some (U "штраф") /\
    dict_get finding (U "severity") = Some (U "высокий") /\
    overall_rating sample_analysis = U "рискован" /\
    chat_answer lower_sample sample_analysis (U "какие риски?")
    = Ok (U "🚨 В документе найдены следующие риски:" ++ NL ++ NL
          ++ U "• штрафные санкции: Рекомендуется пересмотреть условия, связанные с 'штраф'").
Proof.
  eexists. split; [vm_compute; reflexivity|].
  repeat split; vm_compute; reflexivity.
Qed.

Example scenario_neutral :
  let text := concat (repeat neutral_text 10) in
  exists analysis answer,
    analyze_document lower_sample upper_sample text
      (U "contract.txt") (U "doc-1") (U "2024-01-01T00:00:00") = Ok analysis /\
    risks analysis = [] /\ benefits analysis = [] /\
    unclear_terms analysis = [] /\
    overall_rating analysis = U "безопасен" /\
    chat_answer lower_sample analysis (U "стоит ли подписывать?") = Ok answer /\
    str_in (U "✅ Документ выглядит относительно безопасным.") answer = true.
Proof.
  intros text. eexists _, _.
  split; [vm_compute; reflexivity|].
  repeat split; vm_compute; reflexivity.
Qed.

(** * Further properties of the code *)

(** ** Pieces of a text *)

Lemma piece_of_trans (a b c : list N) :
  piece_of a b -> piece_of b c -> piece_of a c.
Proof.
  intros (p1 & q1 & ->) (p2 & q2 & ->).
  exists (p2 ++ p1), (q1 ++ q2). rewrite <- !app_assoc. reflexivity.
Qed.

Lemma lstrip_suffix (s : list N) : exists a, s = a ++ lstrip s.
Proof.
  induction s as [|c s [a IH]]; simpl.
  - exists []. reflexivity.
  - destruct (isspace c).
    + exists (c :: a). simpl. rewrite <- IH. reflexivity.
    + exists []. reflexivity.
Qed.

Lemma lstrip_head (s : list N) :
  lstrip s = [] \/ exists c t, lstrip s = c :: t /\ isspace c = false.
Proof.
  induction s as [|c s IH]; simpl; [left; reflexivity|].
  destruct (isspace c) eqn:E; [exact IH|]. right. eauto.
Qed.

Lemma strip_piece (s : list N) : piece_of (strip s) s.
Proof.
  unfold strip, rstrip.
  destruct (lstrip_suffix s) as [a Ha].
  destruct (lstrip_suffix (rev (lstrip s))) as [b Hb].
  exists a, (rev b). rewrite Ha at 1. f_equal.
  rewrite <- (rev_involutive (lstrip s)), Hb at 1.
  rewrite rev_app_distr. reflexivity.
Qed.

(** What [strip] returns is empty or has no white space at either end. *)
Lemma strip_solid (s : list N) : strip s = [] \/ solid_ends (strip s) = true.
Proof.
  unfold strip, rstrip.
  destruct (lstrip_suffix (rev (lstrip s))) as [b Hb].
  destruct (lstrip_head (rev (lstrip s))) as [E | (d & u & E & Hd)].
  - left. rewrite E. reflexivity.
  - right. rewrite E in *. unfold solid_ends.
    rewrite rev_involutive. rewrite Hd. simpl negb. rewrite andb_true_r.
    assert (Ht : lstrip s = rev (d :: u) ++ rev b).
    { rewrite <- (rev_involutive (lstrip s)), Hb, rev_app_distr. reflexivity. }
    destruct (lstrip_head s) as [E0 | (c & t & E0 & Hc)].
    + rewrite E0 in Ht. simpl in Ht.
      destruct (rev u); discriminate.
    + rewrite E0 in Ht.
      destruct (rev (d :: u)) as [|c' r] eqn:Er.
      * simpl in Er. destruct (rev u); discriminate.
      * simpl in Ht. injection Ht as <- _. rewrite Hc. reflexivity.
Qed.

Lemma strip_fixed (s : list N) : solid_ends s = true -> strip s = s.
Proof.
  unfold solid_ends, strip, rstrip. intros H.
  apply andb_true_iff in H as [H1 H2].
  destruct s as [|c s]; [discriminate|]. apply negb_true_iff in H1.
  simpl lstrip at 2. rewrite H1.
  destruct (rev (c :: s)) as [|d r] eqn:Er; [discriminate|].
  apply negb_true_iff in H2. simpl lstrip. rewrite H2.
  rewrite <- Er. apply rev_involutive.
Qed.

Lemma strip_idempotent (s : list N) : strip (strip s) = strip s.
Proof.
  destruct (strip_solid s) as [E|E].
  - rewrite E. reflexivity.
  - apply strip_fixed, E.
Qed.

Lemma take_drop_piece (s : list N) (m n : nat) : piece_of (take n (drop m s)) s.
Proof.
  exists (take m s), (drop n (drop m s)).
  rewrite take_drop, take_drop. reflexivity.
Qed.

Lemma slice_piece (s : list N) (a b : Z) : piece_of (slice s a b) s.
Proof. unfold slice. apply take_drop_piece. Qed.

Lemma context_window_piece text text_lower keyword :
  piece_of (context_window text text_lower keyword) text.
Proof.
  unfold context_window.
  eapply piece_of_trans; [apply strip_piece | apply slice_piece].
Qed.

(** Where a finding comes from: its keyword and its context window. *)
Lemma finding_context lower text finding :
  finding ∈ extract_risks lower text ++ extract_benefits lower text
            ++ extract_unclear lower text ->
  exists keyword,
    dict_get finding (U "context")
    = Some (context_window text (lower text) keyword).
Proof.
  intros Hin.
  apply elem_of_app in Hin as [Hin|Hin]; [|apply elem_of_app in Hin as [Hin|Hin]].
  - apply elem_of_extract_risks in Hin as (ty & kws & kw & _ & _ & ->).
    exists kw. reflexivity.
  - apply elem_of_extract_benefits in Hin as (ty & kws & kw & _ & _ & ->).
    exists kw. reflexivity.
  - apply elem_of_extract_unclear in Hin as (p & _ & _ & ->).
    exists p. reflexivity.
Qed.

(** X1: the context of every finding is a contiguous piece of the original
    text, and it is empty or has no white space at either end (lines
    146-150, 173-176, 196-199). *)
Theorem context_is_piece_of_text lower text finding :
  finding ∈ extract_risks lower text ++ extract_benefits lower text
            ++ extract_unclear lower text ->
  exists context,
    dict_get finding (U "context") = Some context /\
    piece_of context text /\
    (context = [] \/ solid_ends context = true) /\
    strip context = context.
Proof.
  intros Hin. destruct (finding_context lower text finding Hin) as [kw Hctx].
  eexists. split; [exact Hctx|]. split; [apply context_window_piece|].
  unfold context_window. split; [apply strip_solid | apply strip_idempotent].
Qed.

(** ** What the keyword tables imply *)

Lemma rating_values_distinct :
  RISKY <> NEEDS_ATTENTION /\ RISKY <> SAFE /\ NEEDS_ATTENTION <> SAFE /\
  HIGH <> MEDIUM.
Proof. repeat split; intros H; vm_compute in H; discriminate H. Qed.

Lemma table_severity :
  forallb (fun k => Bool.eqb (any_in severe_fragments k)
                      (str_eqb k (U "штраф")
                       || str_eqb k (U "полная ответственность")))
          (concat risk_patterns.*2) = true.
Proof. vm_compute. reflexivity. Qed.

Lemma table_value :
  forallb (fun k => Bool.eqb (str_in (U "гарантия") k)
                      (str_eqb k (U "гарантия")))
          (concat benefit_patterns.*2) = true.
Proof. vm_compute. reflexivity. Qed.

Lemma forallb_elem {A} (f : A -> bool) (l : list A) (x : A) :
  forallb f l = true -> x ∈ l -> f x = true.
Proof.
  intros H Hx. rewrite forallb_forall in H. apply H, list_elem_of_In, Hx.
Qed.

Lemma risk_keyword_severity type keywords keyword :
  (type, keywords) ∈ risk_patterns -> keyword ∈ keywords ->
  any_in severe_fragments keyword
  = bool_decide (keyword = U "штраф" \/ keyword = U "полная ответственность").
Proof.
  intros Hrow Hk.
  pose proof (forallb_elem _ _ keyword table_severity
                (row_keyword_configured _ _ _ _ Hrow Hk)) as H.
  apply Bool.eqb_prop in H. rewrite H. unfold str_eqb.
  destruct (decide (keyword = U "штраф")) as [E1|E1];
    destruct (decide (keyword = U "полная ответственность")) as [E2|E2].
  - rewrite (bool_decide_eq_true_2 _ E1). symmetry. apply bool_decide_eq_true_2. auto.
  - rewrite (bool_decide_eq_true_2 _ E1). symmetry. apply bool_decide_eq_true_2. auto.
  - rewrite (bool_decide_eq_false_2 _ E1), (bool_decide_eq_true_2 _ E2).
    symmetry. apply bool_decide_eq_true_2. auto.
  - rewrite (bool_decide_eq_false_2 _ E1), (bool_decide_eq_false_2 _ E2).
    symmetry. apply bool_decide_eq_false_2. tauto.
Qed.

Lemma benefit_keyword_value type keywords keyword :
  (type, keywords) ∈ benefit_patterns -> keyword ∈ keywords ->
  str_in (U "гарантия") keyword = bool_decide (keyword = U "гарантия").
Proof.
  intros Hrow Hk.
  pose proof (forallb_elem _ _ keyword table_value
                (row_keyword_configured _ _ _ _ Hrow Hk)) as H.
  apply Bool.eqb_prop in H. exact H.
Qed.

Lemma benefit_value text tl type keyword :
  dict_get (benefit_finding text tl type keyword) (U "value")
  = Some (if str_in (U "гарантия") keyword then U "высокая" else U "средняя").
Proof. reflexivity. Qed.

Section Tables.
Variable lower upper : list N -> list N.

(** X2: the severity of a risk and the value of a benefit are decided by
    the recorded keyword alone: a risk is [высокий] exactly when its keyword
    is [штраф] or [полная ответственность], and [средний] otherwise; a
    benefit is [высокая] exactly when its keyword is [гарантия], and
    [средняя] otherwise (lines 156 and 182 with the two tables). *)
Theorem severity_and_value_by_keyword text :
  (forall r, r ∈ extract_risks lower text ->
     exists keyword,
       dict_get r (U "keyword") = Some keyword /\
       dict_get r (U "severity")
       = Some (if bool_decide (keyword = U "штраф" \/
                               keyword = U "полная ответственность")
               then HIGH else MEDIUM)) /\
  (forall b, b ∈ extract_benefits lower text ->
     exists keyword,
       dict_get b (U "keyword") = Some keyword /\
       dict_get b (U "value")
       = Some (if bool_decide (keyword = U "гарантия")
               then U "высокая" else U "средняя")).
Proof.
  split.
  - intros r Hr.
    apply elem_of_extract_risks in Hr as (ty & kws & kw & Hrow & Hfm & ->).
    apply first_match_elem in Hfm as [Hk _].
    exists kw. split; [reflexivity|].
    rewrite risk_severity, (risk_keyword_severity _ _ _ Hrow Hk). reflexivity.
  - intros b Hb.
    apply elem_of_extract_benefits in Hb as (ty & kws & kw & Hrow & Hfm & ->).
    apply first_match_elem in Hfm as [Hk _].
    exists kw. split; [reflexivity|].
    rewrite benefit_value, (benefit_keyword_value _ _ _ Hrow Hk). reflexivity.
Qed.

Lemma severe_risk_found text :
  (exists r, r ∈ extract_risks lower text /\ severe r) <->
  str_in (U "штраф") (lower text) = true \/
  str_in (U "полная ответственность") (lower text) = true.
Proof.
  split.
  - intros (r & Hr & Hs).
    apply elem_of_extract_risks in Hr as (ty & kws & kw & Hrow & Hfm & ->).
    apply first_match_elem in Hfm as [Hk Hocc].
    unfold severe in Hs.
    rewrite risk_severity, (risk_keyword_severity _ _ _ Hrow Hk) in Hs.
    destruct (decide (kw = U "штраф" \/ kw = U "полная ответственность"))
      as [[->| ->]|E]; [left; exact Hocc | right; exact Hocc |].
    rewrite (bool_decide_eq_false_2 _ E) in Hs.
    destruct rating_values_distinct as (_ & _ & _ & Hd).
    assert (Hm : MEDIUM = HIGH) by (apply (inj Some), Hs). congruence.
  - intros H.
    assert (exists ty rest kw,
              (ty, kw :: rest) ∈ risk_patterns /\
              str_in kw (lower text) = true /\
              any_in severe_fragments kw = true) as (ty & rest & kw & Hrow & Hocc & Hs).
    { destruct H as [H|H].
      - exists (U "штрафные санкции"), [U "пеня"; U "неустойка"; U "санкции"],
          (U "штраф").
        split; [apply list_elem_of_In; left; reflexivity|].
        split; [exact H | vm_compute; reflexivity].
      - exists (U "высокая ответственность"),
          [U "возмещение всех"; U "солидарная ответственность"],
          (U "полная ответственность").
        split; [apply list_elem_of_In; right; right; left; reflexivity|].
        split; [exact H | vm_compute; reflexivity]. }
    exists (risk_finding text (lower text) ty kw). split.
    + apply elem_of_extract_risks. exists ty, (kw :: rest), kw.
      split; [exact Hrow|]. split; [|reflexivity].
      simpl. rewrite Hocc. reflexivity.
    + unfold severe. rewrite risk_severity, Hs. reflexivity.
Qed.

Lemma omap_nil_inv {A B} (f : A -> option B) (l : list A) :
  omap f l = [] -> Forall (fun x => f x = None) l.
Proof.
  induction l as [|x l IH]; csimpl; [constructor|].
  destruct (f x) eqn:E; csimpl; [discriminate|].
  intros H. constructor; [exact E | apply IH, H].
Qed.

Lemma no_risk_iff text :
  extract_risks lower text = [] <->
  Forall (fun k => str_in k (lower text) = false) (concat risk_patterns.*2).
Proof.
  rewrite extract_risks_spec. split.
  - intros H. apply omap_nil_inv in H. rewrite Forall_concat.
    apply Forall_fmap. eapply Forall_impl; [exact H|].
    intros [ty kws]. unfold row_finding. simpl.
    destruct (first_match (lower text) kws) eqn:E; [discriminate|].
    intros _. apply first_match_None, E.
  - apply scan_rows_empty.
Qed.

(** X3: the rating is decided by the risk keywords that occur in the
    lower-cased text: [рискован] exactly when [штраф] or [полная
    ответственность] occurs; [безопасен] exactly when no risk keyword
    occurs; [требует внимания] exactly when some risk keyword occurs and
    neither of those two does (lines 143-159 and 209-219). *)
Theorem rating_by_keywords text filename uuid4 now :
  exists analysis,
    analyze_document lower upper text filename uuid4 now = Ok analysis /\
    (overall_rating analysis = RISKY <->
     str_in (U "штраф") (lower text) = true \/
     str_in (U "полная ответственность") (lower text) = true) /\
    (overall_rating analysis = SAFE <->
     Forall (fun k => str_in k (lower text) = false) (concat risk_patterns.*2)) /\
    (overall_rating analysis = NEEDS_ATTENTION <->
     ~ (str_in (U "штраф") (lower text) = true \/
        str_in (U "полная ответственность") (lower text) = true) /\
     ~ Forall (fun k => str_in k (lower text) = false) (concat risk_patterns.*2)).
Proof.
  destruct (analyze_document_returns lower upper text filename uuid4 now)
    as [s Hs].
  eexists. split; [exact Hs|]. cbn [overall_rating].
  destruct rating_values_distinct as (D1 & D2 & D3 & _).
  rewrite <- severe_risk_found, <- no_risk_iff.
  set (R := extract_risks lower text).
  assert (Hcases :
    (exists r, r ∈ R /\ severe r) /\ rate R = RISKY \/
    ~ (exists r, r ∈ R /\ severe r) /\ R <> [] /\ rate R = NEEDS_ATTENTION \/
    ~ (exists r, r ∈ R /\ severe r) /\ R = [] /\ rate R = SAFE).
  { destruct (existsb (fun r => bool_decide (severe r)) R) eqn:E.
    - left. apply existsb_exists in E as (r & Hin & Hsev).
      apply list_elem_of_In in Hin. apply bool_decide_eq_true_1 in Hsev.
      split; [eauto | exact (rate_severe _ r Hin Hsev)].
    - assert (Hno : ~ (exists r, r ∈ R /\ severe r)).
      { intros (r & Hin & Hsev).
        assert (existsb (fun r => bool_decide (severe r)) R = true); [|congruence].
        apply existsb_exists. exists r.
        split; [apply list_elem_of_In, Hin | apply bool_decide_eq_true_2, Hsev]. }
      destruct R as [|r R'] eqn:ER.
      + right. right. split; [exact Hno|]. split; reflexivity.
      + right. left. split; [exact Hno|]. split; [discriminate|].
        apply rate_not_severe; [|discriminate].
        intros r0 Hr0 Hs0. apply Hno. eauto. }
  revert D1 D2 D3 Hcases.
  generalize RISKY, NEEDS_ATTENTION, SAFE, (rate R).
  intros risky attention safe rating D1 D2 D3 Hcases.
  destruct Hcases as [[H1 H2] | [(H1 & H2 & H3) | (H1 & H2 & H3)]]; subst rating.
  - split; [tauto|]. split; split; intros H; [congruence| |congruence|tauto].
    subst R. destruct H1 as (r & Hr & _). rewrite H in Hr.
    apply elem_of_nil in Hr. destruct Hr.
  - split; [split; intros H; [congruence | tauto]|].
    split; split; intros H; [congruence | congruence | tauto | reflexivity].
  - split; [split; intros H; [congruence | tauto]|].
    split; split; intros H; [exact H2 | reflexivity | congruence | tauto].
Qed.
End Tables.

Lemma table_keywords_reachable :
  forallb (fun row : list N * list (list N) =>
    forallb (fun k => match first_match k row.2 with
                      | Some k' => str_eqb k' k
                      | None => false
                      end) row.2)
    (risk_patterns ++ benefit_patterns) = true.
Proof. vm_compute. reflexivity. Qed.

Lemma first_match_self (table : list (list N * list (list N))) type keywords keyword :
  table = risk_patterns \/ table = benefit_patterns ->
  (type, keywords) ∈ table -> keyword ∈ keywords ->
  first_match keyword keywords = Some keyword.
Proof.
  intros Htable Hrow Hk.
  assert (Hboth : (type, keywords) ∈ risk_patterns ++ benefit_patterns).
  { apply elem_of_app. destruct Htable as [-> | ->]; auto. }
  pose proof (forallb_elem _ _ _ table_keywords_reachable Hboth) as H.
  cbn [snd] in H.
  pose proof (forallb_elem _ _ _ H Hk) as H'. cbn beta in H'.
  destruct (first_match keyword keywords) as [k'|]; [|discriminate].
  apply bool_decide_eq_true_1 in H'. congruence.
Qed.

Lemma table_unclear_overlap :
  forallb (fun p => str_eqb p (U "разумный срок")
                    || forallb (fun k => negb (str_in k p))
                         (concat risk_patterns.*2))
          unclear_patterns = true.
Proof. vm_compute. reflexivity. Qed.

Section Overlaps.
Variable lower upper : list N -> list N.

(** X4: no keyword is shadowed inside its row: when the lower-cased text is
    a keyword of a risk or benefit row, the finding of that row is the one
    for this very keyword (no earlier keyword of the row occurs inside
    it). *)
Theorem every_keyword_reportable text type keywords keyword :
  keyword ∈ keywords -> lower text = keyword ->
  ((type, keywords) ∈ risk_patterns ->
   filter (has_type type) (extract_risks lower text)
   = [risk_finding text keyword type keyword]) /\
  ((type, keywords) ∈ benefit_patterns ->
   filter (has_type type) (extract_benefits lower text)
   = [benefit_finding text keyword type keyword]).
Proof.
  intros Hk Hlow. split; intros Hrow.
  - rewrite extract_risks_spec, Hlow.
    rewrite (filter_type_row _ (risk_type text keyword) _ _ _ _
               risk_types_distinct Hrow).
    rewrite (first_match_self risk_patterns type keywords keyword); auto.
  - rewrite extract_benefits_spec, Hlow.
    rewrite (filter_type_row _ (benefit_type text keyword) _ _ _ _
               benefit_types_distinct Hrow).
    rewrite (first_match_self benefit_patterns type keywords keyword); auto.
Qed.

(** X5: the phrase [разумный срок] is in both the unclear phrases and the
    risk keywords, at the head of its row: it is reported as an unclear term
    exactly when it is reported as a risk of type [неопределенные сроки], and
    then the rating is not [безопасен].  No other unclear phrase contains a
    risk keyword: a text whose lower case is such a phrase is rated
    [безопасен]. *)
Theorem reasonable_term_is_also_a_risk text :
  (unclear_finding text (lower text) (U "разумный срок")
     ∈ extract_unclear lower text <->
   risk_finding text (lower text) (U "неопределенные сроки") (U "разумный срок")
     ∈ extract_risks lower text) /\
  (unclear_finding text (lower text) (U "разумный срок")
     ∈ extract_unclear lower text ->
   rate (extract_risks lower text) <> SAFE) /\
  (forall phrase,
     phrase ∈ unclear_patterns -> phrase <> U "разумный срок" ->
     lower text = phrase ->
     extract_risks lower text = [] /\ rate (extract_risks lower text) = SAFE).
Proof.
  assert (Hu : unclear_finding text (lower text) (U "разумный срок")
                 ∈ extract_unclear lower text <->
               str_in (U "разумный срок") (lower text) = true).
  { rewrite elem_of_extract_unclear. split.
    - intros (p & _ & Hocc & Heq).
      apply (f_equal (fun f => dict_get f (U "phrase"))) in Heq.
      rewrite !unclear_phrase in Heq. injection Heq as ->. exact Hocc.
    - intros Hocc. exists (U "разумный срок").
      split; [|split; [exact Hocc | reflexivity]].
      apply list_elem_of_In. vm_compute. tauto. }
  assert (Hr : risk_finding text (lower text) (U "неопределенные сроки")
                 (U "разумный срок") ∈ extract_risks lower text <->
               str_in (U "разумный срок") (lower text) = true).
  { rewrite elem_of_extract_risks. split.
    - intros (ty & kws & kw & _ & Hfm & Heq).
      apply (f_equal (fun f => dict_get f (U "keyword"))) in Heq.
      rewrite !risk_keyword in Heq. injection Heq as ->.
      apply first_match_elem in Hfm as [_ Hocc]. exact Hocc.
    - intros Hocc.
      exists (U "неопределенные сроки"),
        [U "разумный срок"; U "в кратчайшие сроки"; U "незамедлительно";
         U "без промедления"], (U "разумный срок").
      split; [apply list_elem_of_In; vm_compute; tauto|].
      split; [|reflexivity]. simpl. rewrite Hocc. reflexivity. }
  split; [rewrite Hu, Hr; reflexivity|]. split.
  - intros H. apply Hu, Hr in H. intros Hsafe.
    rewrite rate_cases in Hsafe.
    destruct rating_values_distinct as (_ & D2 & D3 & _).
    destruct (existsb _ _); [congruence|].
    destruct (extract_risks lower text); [|congruence].
    apply elem_of_nil in H. exact H.
  - intros phrase Hp Hne Hlow.
    assert (E : extract_risks lower text = []).
    { rewrite extract_risks_spec. apply scan_rows_empty. rewrite Hlow.
      pose proof (forallb_elem _ _ _ table_unclear_overlap Hp) as H.
      cbn beta in H. apply orb_true_iff in H as [H|H].
      - apply bool_decide_eq_true_1 in H. contradiction.
      - apply Forall_forall. intros k Hk.
        apply (forallb_elem _ _ _ H) in Hk. apply negb_true_iff, Hk. }
    rewrite E. split; reflexivity.
Qed.

Lemma any_penalty_false (risks : list (list (list N * list N))) :
  Forall (fun r => exists k, dict_get r (U "keyword") = Some k /\
                             str_in (U "штраф") k = false) risks ->
  any_penalty risks = Ok false.
Proof.
  induction 1 as [|r risks (k & Hk & Hno) _ IH]; [reflexivity|].
  simpl. rewrite (getitem_Some _ _ _ Hk). simpl. rewrite Hno. exact IH.
Qed.

Lemma table_penalty_keyword :
  forallb (fun k => Bool.eqb (str_in (U "штраф") k) (str_eqb k (U "штраф")))
          (concat risk_patterns.*2) = true.
Proof. vm_compute. reflexivity. Qed.

(** The gate of the first recommendation line (line 233). *)
Lemma any_penalty_extract text :
  any_penalty (extract_risks lower text) = Ok (str_in (U "штраф") (lower text)).
Proof.
  destruct (str_in (U "штраф") (lower text)) eqn:E.
  - rewrite extract_risks_spec. unfold risk_patterns. csimpl.
    unfold row_finding at 1. simpl first_match. rewrite E. reflexivity.
  - apply any_penalty_false, Forall_forall. intros r Hr.
    apply elem_of_extract_risks in Hr as (ty & kws & kw & Hrow & Hfm & ->).
    apply first_match_elem in Hfm as [Hk Hocc].
    exists kw. split; [reflexivity|].
    pose proof (forallb_elem _ _ kw table_penalty_keyword
                  (row_keyword_configured _ _ _ _ Hrow Hk)) as H.
    apply Bool.eqb_prop in H. rewrite H. apply bool_decide_eq_false_2.
    intros ->. congruence.
Qed.
End Overlaps.

(** ** The summary *)

Lemma lstrip_spaces (a s : list N) :
  forallb isspace a = true -> lstrip (a ++ s) = lstrip s.
Proof.
  induction a as [|c a IH]; simpl; [reflexivity|].
  intros H. apply andb_true_iff in H as [Hc Ha]. rewrite Hc. apply IH, Ha.
Qed.

Lemma strip_padded (a s b : list N) :
  forallb isspace a = true -> forallb isspace b = true ->
  solid_ends s = true -> strip (a ++ s ++ b) = s.
Proof.
  intros Ha Hb Hs. unfold strip, rstrip. rewrite lstrip_spaces by exact Ha.
  unfold solid_ends in Hs. apply andb_true_iff in Hs as [H1 H2].
  destruct s as [|c s]; [discriminate|]. apply negb_true_iff in H1.
  simpl lstrip at 2. rewrite H1.
  change (c :: s ++ b) with ((c :: s) ++ b). rewrite rev_app_distr.
  rewrite lstrip_spaces.
  - destruct (rev (c :: s)) as [|d r] eqn:Er; [discriminate|].
    apply negb_true_iff in H2. simpl. rewrite H2, <- Er. apply rev_involutive.
  - rewrite forallb_forall in *. intros x Hx. apply Hb, in_rev, Hx.
Qed.

Lemma solid_ends_intro (s : list N) :
  (exists c t, s = c :: t /\ isspace c = false) ->
  (exists t d, s = t ++ [d] /\ isspace d = false) ->
  solid_ends s = true.
Proof.
  intros (c & t & -> & Hc) (t' & d & E & Hd). unfold solid_ends.
  rewrite Hc, E, rev_app_distr. simpl. rewrite Hd. reflexivity.
Qed.

Lemma ends_app (P : N -> Prop) (x y : list N) :
  (exists t d, y = t ++ [d] /\ P d) -> exists t d, x ++ y = t ++ [d] /\ P d.
Proof.
  intros (t & d & -> & Hd). exists (x ++ t), d.
  rewrite <- app_assoc. auto.
Qed.

Lemma begins_app (P : N -> Prop) (x y : list N) :
  (exists c t, x = c :: t /\ P c) -> exists c t, x ++ y = c :: t /\ P c.
Proof. intros (c & t & -> & Hc). exists c, (t ++ y). auto. Qed.

Lemma summary_body_solid filename n1 n2 n3 rating_upper g1 g2 g3 :
  solid_ends (summary_body filename n1 n2 n3 rating_upper g1 g2 g3) = true.
Proof.
  apply solid_ends_intro; unfold summary_body.
  - apply begins_app. exists 1044%N, (tl (U "Документ '")).
    split; vm_compute; reflexivity.
  - repeat apply ends_app.
    match goal with
    | |- exists t d, ?Z = _ /\ _ => exists (removelast Z), 46%N
    end.
    split; vm_compute; reflexivity.
Qed.

Lemma first_match_gate text_lower keywords :
  match first_match text_lower keywords with Some _ => true | None => false end
  = existsb (fun k => str_in k text_lower) keywords.
Proof.
  induction keywords as [|k rest IH]; simpl; [reflexivity|].
  destruct (str_in k text_lower); [reflexivity | exact IH].
Qed.

Lemma scan_rows_gate {A} (mk : list N -> list N -> A) text_lower table :
  match omap (row_finding mk text_lower) table with
  | _ :: _ => true
  | [] => false
  end
  = existsb (fun k => str_in k text_lower) (concat table.*2).
Proof.
  induction table as [|[ty kws] table IH]; csimpl; [reflexivity|].
  rewrite existsb_app, <- first_match_gate. unfold row_finding at 1. simpl.
  destruct (first_match text_lower kws); csimpl; [reflexivity | exact IH].
Qed.

Lemma scan_phrases_gate {A} (mk : list N -> A) text_lower patterns :
  match mk <$> filter (fun p => str_in p text_lower = true) patterns with
  | _ :: _ => true
  | [] => false
  end
  = existsb (fun p => str_in p text_lower) patterns.
Proof.
  induction patterns as [|p rest IH]; [reflexivity|].
  rewrite filter_cons. simpl existsb.
  destruct (decide (str_in p text_lower = true)) as [E|E].
  - rewrite E. reflexivity.
  - apply not_true_is_false in E. rewrite E. exact IH.
Qed.

Section Summary.
Variable lower upper : list N -> list N.

(** X6: the summary is the text of lines 223-237 without surrounding white
    space, whatever the file name: it starts with [Документ '<filename>'],
    reports the three counts and the upper-cased rating, and ends with the
    disclaimer.  The three recommendation lines are gated by the text: the
    first is there exactly when [штраф] occurs in the lower-cased text, the
    second exactly when some unclear phrase occurs, the third exactly when
    some benefit keyword occurs. *)
Theorem summary_of_analysis text filename uuid4 now :
  exists analysis,
    analyze_document lower upper text filename uuid4 now = Ok analysis /\
    summary analysis
    = summary_body filename
        (length (risks analysis)) (length (benefits analysis))
        (length (unclear_terms analysis))
        (upper (overall_rating analysis))
        (str_in (U "штраф") (lower text))
        (existsb (fun p => str_in p (lower text)) unclear_patterns)
        (existsb (fun k => str_in k (lower text)) (concat benefit_patterns.*2)).
Proof.
  unfold analyze_document, render_summary.
  rewrite any_penalty_extract. unfold mbind, result_bind.
  eexists. split; [reflexivity|]. cbn [summary risks benefits unclear_terms overall_rating].
  rewrite <- (scan_phrases_gate (unclear_finding text (lower text))).
  rewrite <- (scan_rows_gate (benefit_finding text (lower text))).
  rewrite <- extract_unclear_spec, <- extract_benefits_spec.
  set (R := extract_risks lower text).
  set (B := extract_benefits lower text).
  set (C := extract_unclear lower text).
  set (body := summary_body _ _ _ _ _ _ _ _).
  match goal with
  | |- strip ?t = _ =>
    replace t with (NL ++ body ++ (NL ++ U "        "))
  end.
  - apply strip_padded; [reflexivity | reflexivity | apply summary_body_solid].
  - subst body. unfold summary_body.
    destruct C, B; rewrite <- !app_assoc; reflexivity.
Qed.
End Summary.

(** ** The chat handler and the stores *)

Lemma alter_or_create {A} (m : gmap (list N) (list A)) (id : list N) (x : A) :
  alter (fun l => l ++ [x]) id
    (match m !! id with
     | None => <[id := []]> m
     | Some _ => m
     end)
  = <[id := default [] (m !! id) ++ [x]]> m.
Proof.
  apply map_eq. intros j. destruct (decide (id = j)) as [<-|Hne].
  - rewrite lookup_insert_eq. destruct (m !! id) as [h|] eqn:E.
    + rewrite lookup_alter_eq, E. reflexivity.
    + rewrite lookup_alter_eq, lookup_insert_eq. reflexivity.
  - rewrite lookup_insert_ne by exact Hne. destruct (m !! id) as [h|] eqn:E.
    + rewrite lookup_alter_ne by exact Hne. reflexivity.
    + rewrite lookup_alter_ne, lookup_insert_ne by exact Hne. reflexivity.
Qed.

Lemma chat_effect lower message now st :
  let id := ChatMessage.document_id message in
  let question := ChatMessage.question message in
  match documents_storage st !! id with
  | None =>
    chat_with_document lower message now st
    = (Raise (HTTPException 404 (U "Документ не найден")), st)
  | Some document =>
    match chat_answer lower document question with
    | Raise e => chat_with_document lower message now st = (Raise e, st)
    | Ok answer =>
      chat_with_document lower message now st
      = (Ok {| ChatResponse.answer := answer; ChatResponse.document_id := id |},
         {| documents_storage := documents_storage st;
            chat_history :=
              <[id := history_of st id ++ [exchange_of question answer now]]>
                (chat_history st) |})
    end
  end.
Proof.
  intros id question. unfold chat_with_document. fold id. fold question.
  destruct (documents_storage st !! id) as [document|]; [|reflexivity].
  destruct (chat_answer lower document question) as [answer|e]; [|reflexivity].
  rewrite alter_or_create. reflexivity.
Qed.

(** X7: a chat request for a stored document whose answer is rendered
    appends exactly one exchange, with the question, the answer that is
    returned and the time stamp, at the end of the history of that document
    (created empty when it does not exist yet); it leaves the histories of
    all other documents and the stored analyses as they are (lines
    382-392). *)
Theorem chat_records_exchange lower message now st document answer :
  documents_storage st !! ChatMessage.document_id message = Some document ->
  chat_answer lower document (ChatMessage.question message) = Ok answer ->
  exists st',
    chat_with_document lower message now st
    = (Ok {| ChatResponse.answer := answer;
             ChatResponse.document_id := ChatMessage.document_id message |},
       st') /\
    documents_storage st' = documents_storage st /\
    history_of st' (ChatMessage.document_id message)
    = history_of st (ChatMessage.document_id message)
      ++ [exchange_of (ChatMessage.question message) answer now] /\
    (forall id, id <> ChatMessage.document_id message ->
                chat_history st' !! id = chat_history st !! id).
Proof.
  intros Hdoc Hans. pose proof (chat_effect lower message now st) as H.
  cbv zeta in H. rewrite Hdoc, Hans in H.
  eexists. split; [exact H|]. cbn [documents_storage chat_history].
  split; [reflexivity|]. split.
  - unfold history_of at 1. cbn [chat_history]. rewrite lookup_insert_eq. reflexivity.
  - intros id Hne. apply lookup_insert_ne. congruence.
Qed.

Lemma chat_keeps_documents lower message now st :
  documents_storage (snd (chat_with_document lower message now st))
  = documents_storage st.
Proof.
  pose proof (chat_effect lower message now st) as H. cbv zeta in H.
  destruct (documents_storage st !! ChatMessage.document_id message) as [d|];
    [|rewrite H; reflexivity].
  destruct (chat_answer lower d (ChatMessage.question message));
    rewrite H; reflexivity.
Qed.

Lemma chat_extends_history lower message now st id :
  history_of st id
  `prefix_of` history_of (snd (chat_with_document lower message now st)) id.
Proof.
  pose proof (chat_effect lower message now st) as H. cbv zeta in H.
  destruct (documents_storage st !! ChatMessage.document_id message) as [d|];
    [|rewrite H; reflexivity].
  destruct (chat_answer lower d (ChatMessage.question message));
    rewrite H; [|reflexivity].
  unfold history_of at 2. cbn [snd chat_history].
  destruct (decide (ChatMessage.document_id message = id)) as [<-|Hne].
  - rewrite lookup_insert_eq. simpl. eexists. reflexivity.
  - rewrite lookup_insert_ne by exact Hne. reflexivity.
Qed.

(** Line 317 and the history. *)
Lemma store_analysis_history analysis st id :
  history_of (store_analysis analysis st) id = history_of st id.
Proof. reflexivity. Qed.

(** X8: a stored analysis is returned by [GET /api/documents/{id}] under its
    own id; storing it leaves every other id as it was, and a chat request
    never changes what the route returns (lines 317, 411-417, 382-390). *)
Theorem stored_analysis_is_retrievable analysis st :
  get_document (document_id analysis) (store_analysis analysis st) = Ok analysis /\
  (forall id, id <> document_id analysis ->
     get_document id (store_analysis analysis st) = get_document id st) /\
  (forall lower message now id,
     get_document id (snd (chat_with_document lower message now st))
     = get_document id st).
Proof.
  unfold get_document, store_analysis. cbn [documents_storage].
  split; [rewrite lookup_insert_eq; reflexivity|]. split.
  - intros id Hne. rewrite lookup_insert_ne by congruence. reflexivity.
  - intros lower message now id. rewrite chat_keeps_documents. reflexivity.
Qed.

(** X9: [documents_count] of the health route counts the ids in
    [documents_storage]: storing an analysis under a new id adds one,
    storing under an id already present (the record is replaced) adds none,
    and a chat request never changes it (lines 317, 419-427). *)
Theorem documents_count_tracks_ids analysis st :
  (documents_storage st !! document_id analysis = None ->
   Health.documents_count (health_check (store_analysis analysis st))
   = Health.documents_count (health_check st) + 1) /\
  (is_Some (documents_storage st !! document_id analysis) ->
   Health.documents_count (health_check (store_analysis analysis st))
   = Health.documents_count (health_check st)) /\
  (forall lower message now,
     Health.documents_count
       (health_check (snd (chat_with_document lower message now st)))
     = Health.documents_count (health_check st)).
Proof.
  unfold health_check, store_analysis.
  cbn [Health.documents_count documents_storage].
  split; [|split].
  - intros H. rewrite map_size_insert_None by exact H. lia.
  - intros H. rewrite map_size_insert_Some by exact H. reflexivity.
  - intros lower message now. rewrite chat_keeps_documents. reflexivity.
Qed.

(** ** The answers and the rating *)

Lemma join_cons_nonempty (sep p : list N) (rest : list (list N)) :
  p <> [] -> join sep (p :: rest) <> [].
Proof.
  intros Hp. destruct rest as [|q rest]; simpl; [exact Hp|].
  destruct p; [congruence | discriminate].
Qed.

Lemma bullet_nonempty k1 k2 d line : bullet k1 k2 d = Ok line -> line <> [].
Proof.
  unfold bullet.
  destruct (getitem d k1) as [a|]; [|discriminate].
  destruct (getitem d k2) as [b|]; [|discriminate].
  unfold mbind, result_bind. intros [= <-].
  change (U "• ") with [8226%N; 32%N]. discriminate.
Qed.

Lemma listing_of_findings head otherwise k1 k2 d findings answer :
  listing head otherwise k1 k2 (d :: findings) = Ok answer ->
  exists body, answer = head ++ body.
Proof.
  unfold listing. simpl map_result.
  destruct (bullet k1 k2 d) as [line|e] eqn:Eb; [|discriminate].
  destruct (map_result (bullet k1 k2) findings) as [lines|e]; [|discriminate].
  unfold mbind, result_bind.
  pose proof (join_cons_nonempty NL line lines (bullet_nonempty _ _ _ _ Eb)) as Hj.
  destruct (join NL (line :: lines)) as [|c body]; [congruence|].
  intros [= <-]. eauto.
Qed.

Lemma listing_agrees head otherwise k1 k2 findings answer :
  listing head otherwise k1 k2 findings = Ok answer ->
  (forall body, head ++ body <> otherwise) ->
  (answer = otherwise <-> findings = []) /\
  (findings <> [] -> exists body, answer = head ++ body).
Proof.
  intros Hans Hdiff. destruct findings as [|d findings].
  - assert (E : answer = otherwise).
    { unfold listing in Hans. simpl in Hans. congruence. }
    split; [tauto | congruence].
  - apply listing_of_findings in Hans as [body ->].
    split; [|eauto]. split; [intros H; destruct (Hdiff _ H) | discriminate].
Qed.

Lemma rate_safe_iff (risks : list (list (list N * list N))) :
  rate risks = SAFE <-> risks = [].
Proof.
  rewrite rate_cases. destruct rating_values_distinct as (_ & D2 & D3 & _).
  destruct risks as [|r risks]; [split; reflexivity|].
  destruct (existsb _ (r :: risks)); split; intros; congruence.
Qed.

(** X10: for a record built by the analyzer, the answer to a question about
    risks is the fixed sentence [В документе не найдено серьезных рисков.]
    exactly when the record has no risk, that is exactly when its rating is
    [безопасен]; otherwise the answer is the list of the risks under its
    heading (lines 339-341 with 209-219). *)
Theorem risk_answer_agrees_with_rating lower upper document :
  from_analyzer lower upper document ->
  exists answer,
    risk_answer document = Ok answer /\
    (answer = U "В документе не найдено серьезных рисков." <->
     risks document = []) /\
    (answer = U "В документе не найдено серьезных рисков." <->
     overall_rating document = SAFE) /\
    (risks document <> [] ->
     exists body,
       answer = (U "🚨 В документе найдены следующие риски:" ++ NL ++ NL) ++ body).
Proof.
  intros (text & fn & id & now & Ha).
  destruct (analyze_document_returns lower upper text fn id now) as [s Hs].
  rewrite Hs in Ha. injection Ha as <-.
  cbn [risks overall_rating]. unfold risk_answer. cbn [risks].
  set (R := extract_risks lower text).
  set (head := U "🚨 В документе найдены следующие риски:" ++ NL ++ NL).
  set (otherwise := U "В документе не найдено серьезных рисков.").
  assert (Hdiff : forall body, head ++ body <> otherwise).
  { intros body H. apply (f_equal (take 1)) in H.
    subst head otherwise. vm_compute in H. discriminate H. }
  clearbody head otherwise.
  destruct (listing_returns head otherwise (U "type") (U "recommendation") R)
    as [answer Hans].
  { eapply Forall_impl; [apply risks_well_formed|]. intros r (? & _ & ?). auto. }
  exists answer. split; [exact Hans|].
  destruct (listing_agrees _ _ _ _ _ _ Hans Hdiff) as [Hiff Hlist].
  split; [exact Hiff|]. split; [|exact Hlist].
  rewrite rate_safe_iff. exact Hiff.
Qed.

(** ** Text extraction *)

Lemma lstrip_nil_iff (s : list N) : lstrip s = [] <-> forallb isspace s = true.
Proof.
  induction s as [|c s IH]; simpl; [tauto|].
  destruct (isspace c); simpl; [exact IH|]. split; discriminate.
Qed.

Lemma strip_nil_iff (s : list N) : strip s = [] <-> forallb isspace s = true.
Proof.
  rewrite <- lstrip_nil_iff. unfold strip, rstrip. split.
  - intros H. destruct (lstrip_head s) as [E | (c & t & E & Hc)]; [exact E|].
    rewrite E in H. apply (f_equal (@rev N)) in H. rewrite rev_involutive in H.
    simpl rev at 2 in H. apply lstrip_nil_iff in H.
    rewrite forallb_forall in H. specialize (H c).
    rewrite H in Hc; [discriminate|]. apply in_rev. rewrite rev_involutive.
    left. reflexivity.
  - intros ->. reflexivity.
Qed.

Lemma strip_not_nil (s : list N) (c : N) :
  c ∈ s -> isspace c = false -> strip s <> [].
Proof.
  intros Hin Hc H. apply strip_nil_iff in H.
  apply (forallb_elem _ _ c H) in Hin. congruence.
Qed.

(** The text splits into leading white space, its stripped part and the
    rest. *)
Lemma strip_split (s : list N) :
  exists lead trail, s = lead ++ strip s ++ trail /\ forallb isspace lead = true.
Proof.
  assert (Hl : exists a, s = a ++ lstrip s /\ forallb isspace a = true).
  { induction s as [|c s (a & IH & Ha)]; simpl.
    - exists []. auto.
    - destruct (isspace c) eqn:E.
      + exists (c :: a). simpl. rewrite E, Ha, <- IH. auto.
      + exists []. auto. }
  destruct Hl as (a & Ha & Hsp).
  destruct (lstrip_suffix (rev (lstrip s))) as [b Hb].
  exists a, (rev b). split; [|exact Hsp].
  unfold strip, rstrip. rewrite Ha at 1. f_equal.
  rewrite <- (rev_involutive (lstrip s)), Hb at 1.
  rewrite rev_app_distr. reflexivity.
Qed.

Lemma solid_ends_elim (s : list N) :
  solid_ends s = true ->
  (exists c t, s = c :: t /\ isspace c = false) /\
  (exists t d, s = t ++ [d] /\ isspace d = false).
Proof.
  unfold solid_ends. intros H. apply andb_true_iff in H as [H1 H2].
  destruct s as [|c s]; [discriminate|]. apply negb_true_iff in H1.
  split; [eauto|].
  destruct (rev (c :: s)) as [|d r] eqn:Er; [discriminate|].
  apply negb_true_iff in H2. exists (rev r), d. split; [|exact H2].
  rewrite <- (rev_involutive (c :: s)), Er. reflexivity.
Qed.

Lemma pdf_pages_text_acc pages n acc :
  pdf_pages_text pages n acc = acc ++ pdf_pages_text pages n [].
Proof.
  revert n acc. induction pages as [|page pages IH]; intros n acc;
    cbn [pdf_pages_text].
  - rewrite app_nil_r. reflexivity.
  - destruct page as [t|]; [|apply IH].
    destruct (strip t); [apply IH|].
    rewrite (IH (S n) ((acc ++ _) ++ _)), (IH (S n) (([] ++ _) ++ _)).
    rewrite app_nil_l, <- !app_assoc. reflexivity.
Qed.

Lemma pdf_pages_text_unreadable pages n acc :
  Forall (fun page => ~ readable page) pages ->
  pdf_pages_text pages n acc = acc.
Proof.
  intros H. revert n. induction H as [|page pages Hp _ IH]; intros n; simpl;
    [reflexivity|].
  destruct page as [t|]; [|apply IH].
  destruct (strip t) eqn:E; [apply IH|].
  destruct Hp. exists t. split; [reflexivity | congruence].
Qed.

Lemma pdf_pages_text_app pre post n acc :
  pdf_pages_text (pre ++ post) n acc
  = pdf_pages_text post (n + length pre) (pdf_pages_text pre n acc).
Proof.
  revert n acc. induction pre as [|page pre IH]; intros n acc; simpl.
  - rewrite Nat.add_0_r. reflexivity.
  - rewrite IH. f_equal. lia.
Qed.

(** The text assembled from the pages of a PDF, around one readable page. *)
Lemma pdf_pages_text_page pre page_text post :
  strip page_text <> [] ->
  pdf_pages_text (pre ++ Some page_text :: post) 0 []
  = pdf_pages_text pre 0 []
    ++ page_header (length pre) ++ page_text ++ NL
    ++ pdf_pages_text post (S (length pre)) [].
Proof.
  intros Hr. rewrite pdf_pages_text_app. cbn [pdf_pages_text Nat.add].
  destruct (strip page_text); [congruence|].
  rewrite pdf_pages_text_acc. rewrite <- !app_assoc. reflexivity.
Qed.

Lemma dash_in_header n : 45%N ∈ page_header n.
Proof.
  unfold page_header. apply elem_of_app. right. apply elem_of_app. left.
  apply list_elem_of_In. vm_compute. auto.
Qed.

Lemma readable_split (pages : list (option (list N))) :
  Forall (fun page => ~ readable page) pages \/
  exists pre page_text post,
    pages = pre ++ Some page_text :: post /\ strip page_text <> [].
Proof.
  induction pages as [|page pages [IH | (pre & t & post & -> & Ht)]].
  - left. constructor.
  - destruct page as [t|].
    + destruct (strip t) eqn:E.
      * left. constructor; [|exact IH]. intros (t' & [= <-] & H). congruence.
      * right. exists [], t, pages. split; [reflexivity | congruence].
    + left. constructor; [|exact IH]. intros (t' & H & _). discriminate.
  - right. exists (page :: pre), t, post. auto.
Qed.

(** X11: a PDF whose pages could be read yields text exactly when some page
    has text that is not blank; otherwise, and when the PDF cannot be opened,
    the request fails with status 400.  The text returned is never empty and
    has no white space at either end (lines 71-93). *)
Theorem pdf_text_iff_readable_page pages :
  ((exists text, extract_text_from_pdf (PdfPages pages) = Ok text) <->
   (exists page_text, Some page_text ∈ pages /\ strip page_text <> [])) /\
  (forall text, extract_text_from_pdf (PdfPages pages) = Ok text ->
     text <> [] /\ solid_ends text = true /\ strip text = text) /\
  (forall e, extract_text_from_pdf (PdfPages pages) = Raise e ->
     e = HTTPException 400
           (U "Ошибка обработки PDF: "
            ++ U "PDF файл не содержит читаемого текста")) /\
  (forall message,
     extract_text_from_pdf (PdfUnreadable message)
     = Raise (HTTPException 400 (U "Ошибка обработки PDF: " ++ message))).
Proof.
  unfold extract_text_from_pdf. split; [|split; [|split]].
  - split.
    + intros [text H].
      destruct (readable_split pages) as [Hno | (pre & t & post & -> & Ht)].
      * rewrite pdf_pages_text_unreadable in H by exact Hno. discriminate H.
      * exists t. split; [|exact Ht]. apply elem_of_app. right. left.
    + intros (t & Hin & Ht).
      apply list_elem_of_split in Hin as (pre & post & ->).
      rewrite pdf_pages_text_page by exact Ht.
      match goal with |- context [strip ?s] => destruct (strip s) eqn:E end;
        [|eauto].
      exfalso. revert E. apply (strip_not_nil _ 45%N); [|reflexivity].
      apply elem_of_app. right. apply elem_of_app. left. apply dash_in_header.
  - intros text H.
    destruct (strip (pdf_pages_text pages 0 [])) as [|c r] eqn:E; [discriminate|].
    injection H as <-. rewrite <- E.
    destruct (strip_solid (pdf_pages_text pages 0 [])) as [E0|Hs]; [congruence|].
    split; [congruence|]. split; [exact Hs | apply strip_idempotent].
  - intros e H.
    destruct (strip (pdf_pages_text pages 0 [])); [|discriminate].
    injection H as <-. reflexivity.
  - reflexivity.
Qed.

(** X12: in the text extracted from a PDF every readable page is preceded
    by the line [--- Страница n ---], where [n] is the position of the page
    in the PDF counted from 1, pages that were skipped included; the line is
    followed by the text of the page as it was extracted (lines 78-83). *)
Theorem pdf_page_header_numbers pre page_text post :
  strip page_text <> [] ->
  exists text lead,
    extract_text_from_pdf (PdfPages (pre ++ Some page_text :: post)) = Ok text /\
    forallb isspace lead = true /\
    piece_of (lead ++ strip page_text) page_text /\
    piece_of (U "--- Страница " ++ str_of_nat (length pre + 1) ++ U " ---" ++ NL
              ++ lead ++ strip page_text) text.
Proof.
  intros Hr. unfold extract_text_from_pdf.
  rewrite pdf_pages_text_page by exact Hr.
  destruct (strip_split page_text) as (lead & trail & Hsplit & Hlead).
  set (line := U "--- Страница " ++ str_of_nat (length pre + 1) ++ U " ---" ++ NL
               ++ lead ++ strip page_text).
  assert (Hsolid : solid_ends line = true).
  { destruct (strip_solid page_text) as [E|Hs]; [congruence|].
    apply solid_ends_elim in Hs as [_ Hend].
    apply solid_ends_intro; subst line.
    - apply begins_app. exists 45%N, (tl (U "--- Страница ")).
      split; vm_compute; reflexivity.
    - repeat apply ends_app. exact Hend. }
  assert (Htext : pdf_pages_text pre 0 [] ++ page_header (length pre)
                  ++ page_text ++ NL
                  ++ pdf_pages_text post (S (length pre)) []
                  = (pdf_pages_text pre 0 [] ++ NL) ++ line
                    ++ (trail ++ NL ++ pdf_pages_text post (S (length pre)) [])).
  { subst line. unfold page_header. rewrite Hsplit at 1.
    rewrite <- !app_assoc. reflexivity. }
  rewrite Htext.
  destruct (strip_keeps (pdf_pages_text pre 0 [] ++ NL) line
              (trail ++ NL ++ pdf_pages_text post (S (length pre)) []) Hsolid)
    as (a & b & ->).
  destruct (a ++ line ++ b) as [|c r] eqn:E.
  - apply solid_ends_elim in Hsolid as [(c & t & Hl & _) _].
    rewrite Hl in E. destruct a; discriminate E.
  - exists (c :: r), lead. split; [reflexivity|]. split; [exact Hlead|].
    split; [exists [], trail; rewrite app_nil_l, <- app_assoc; exact Hsplit|].
    rewrite <- E. exists a, b. reflexivity.
Qed.

(** X13: the text recognised in an image is returned stripped; the request
    fails with status 400 when recognition fails or finds only white space,
    so the text returned is never empty and has no white space at either
    end (lines 96-122). *)
Theorem image_text_is_stripped outcome :
  (forall text, extract_text_from_image outcome = Ok text ->
     exists recognised,
       outcome = OcrText recognised /\ text = strip recognised /\
       text <> [] /\ solid_ends text = true /\ strip text = text) /\
  (forall e, extract_text_from_image outcome = Raise e ->
     exists detail, e = HTTPException 400 (U "Ошибка OCR: " ++ detail)) /\
  (forall recognised,
     outcome = OcrText recognised ->
     ((exists text, extract_text_from_image outcome = Ok text) <->
      forallb isspace recognised = false)).
Proof.
  unfold extract_text_from_image. split; [|split].
  - intros text H. destruct outcome as [m|t]; [discriminate|].
    destruct (strip t) as [|c r] eqn:E; [discriminate|].
    injection H as <-. exists t. rewrite <- E.
    destruct (strip_solid t) as [E0|Hs]; [congruence|].
    repeat split; [congruence | exact Hs | apply strip_idempotent].
  - intros e H. destruct outcome as [m|t].
    + injection H as <-. eauto.
    + destruct (strip t); [|discriminate]. injection H as <-. eauto.
  - intros t ->. pose proof (strip_nil_iff t) as Hnil.
    destruct (strip t) as [|c r].
    + split; [intros [x H]; discriminate H|].
      intros H. rewrite (proj1 Hnil eq_refl) in H. discriminate.
    + split; [|eauto]. intros _.
      destruct (forallb isspace t); [|reflexivity].
      destruct Hnil as [_ Hnil]. discriminate (Hnil eq_refl).
Qed.

(** ** The upload handler and sequences of requests *)

Section Requests.
Variable lower upper : list N -> list N.
Variable read_pdf : list Byte.byte -> pdf_source.
Variable run_ocr : list Byte.byte -> ocr_outcome.
Variable decode_utf8 : list Byte.byte -> list N + list N.

Lemma check_upload_cases content_type (file_content : list Byte.byte) :
  (exists detail,
     check_upload content_type file_content = Raise (HTTPException 400 detail)) \/
  (exists file_type,
     check_upload content_type file_content = Ok file_type /\
     lookup_type allowed_types content_type = Some file_type /\
     0 < len file_content <= MAX_FILE_SIZE).
Proof.
  unfold check_upload.
  destruct (lookup_type allowed_types content_type) as [k|]; [|eauto].
  destruct (Z.gtb_spec (len file_content) MAX_FILE_SIZE); [eauto|].
  destruct (Z.eqb_spec (len file_content) 0); [eauto|].
  right. exists k. repeat split; try assumption. unfold len in *. lia.
Qed.



(** X15: when [POST /api/analyze] succeeds, the upload had an allowed
    content type and between 1 byte and 10 MB, the extracted text has at
    least 50 characters after stripping, the record returned is the
    analyzer's record for that text under the fresh id, and it is stored
    under that id, where [GET /api/documents/{id}] finds it; the chat
    histories are untouched (lines 262-324, 411-417). *)
Theorem upload_success_is_stored content_type filename file_content
    uuid4 now st analysis st' :
  api_analyze_document lower upper read_pdf run_ocr decode_utf8
    content_type filename file_content uuid4 now st = (Ok analysis, st') ->
  0 < len file_content <= MAX_FILE_SIZE /\
  (exists file_type text,
     lookup_type allowed_types content_type = Some file_type /\
     extract_text read_pdf run_ocr decode_utf8 file_type file_content = Ok text /\
     50 <= len (strip text) /\
     analyze_document lower upper text filename uuid4 now = Ok analysis) /\
  document_id analysis = uuid4 /\
  st' = store_analysis analysis st /\
  get_document uuid4 st' = Ok analysis /\
  chat_history st' = chat_history st.
Proof.
  unfold api_analyze_document.
  destruct (check_upload_cases content_type file_content)
    as [[d ->] | (k & -> & Hk & Hsize)]; [discriminate|].
  destruct (extract_text read_pdf run_ocr decode_utf8 k file_content)
    as [t|e] eqn:Et; [|discriminate].
  destruct (Z.ltb_spec (len (strip t)) 50) as [Hlt|Hge]; [discriminate|].
  destruct (analyze_document_returns lower upper t filename uuid4 now)
    as [s Hs].
  rewrite Hs. intros [= <- <-].
  split; [exact Hsize|]. split; [exists k, t; auto|].
  split; [reflexivity|]. split; [reflexivity|].
  split; [|reflexivity].
  unfold get_document, store_analysis. cbn [documents_storage document_id].
  rewrite lookup_insert_eq. reflexivity.
Qed.

Lemma api_analyze_cases content_type filename file_content uuid4 now st :
  snd (api_analyze_document lower upper read_pdf run_ocr decode_utf8
         content_type filename file_content uuid4 now st) = st \/
  exists analysis,
    from_analyzer lower upper analysis /\
    snd (api_analyze_document lower upper read_pdf run_ocr decode_utf8
           content_type filename file_content uuid4 now st)
    = store_analysis analysis st.
Proof.
  unfold api_analyze_document.
  destruct (check_upload content_type file_content) as [k|e]; [|left; reflexivity].
  destruct (extract_text read_pdf run_ocr decode_utf8 k file_content)
    as [t|e]; [|left; reflexivity].
  destruct (len (strip t) <? 50); [left; reflexivity|].
  destruct (analyze_document lower upper t filename uuid4 now) as [a|e] eqn:E;
    [|left; reflexivity].
  right. exists a. split; [|reflexivity]. exists t, filename, uuid4, now. exact E.
Qed.

Lemma handle_cases r st :
  let st' := handle lower upper read_pdf run_ocr decode_utf8 r st in
  st' = st \/
  (exists analysis,
     from_analyzer lower upper analysis /\ st' = store_analysis analysis st) \/
  (exists id exchange,
     is_Some (documents_storage st !! id) /\
     st' = {| documents_storage := documents_storage st;
              chat_history := <[id := history_of st id ++ [exchange]]>
                                (chat_history st) |}).
Proof.
  intros st'. subst st'. destruct r as [ct fn fc id now | message now];
    cbn [handle].
  - destruct (api_analyze_cases ct fn fc id now st) as [-> | (a & Ha & ->)]; eauto.
  - pose proof (chat_effect lower message now st) as H. cbv zeta in H.
    destruct (documents_storage st !! ChatMessage.document_id message)
      as [d|] eqn:Ed; [|rewrite H; auto].
    destruct (chat_answer lower d (ChatMessage.question message));
      rewrite H; [|auto].
    right. right. eexists _, _. split; [|reflexivity]. rewrite Ed. eauto.
Qed.

(** X16: whatever requests are served, the stores stay consistent: every
    stored record was built by the analyzer, a chat history exists only for
    a stored document, and no history is empty.  This holds in particular
    for every state reached from the empty stores the program starts
    with. *)
Theorem requests_keep_stores_consistent requests st :
  store_ok lower upper st -> store_consistent st ->
  store_ok lower upper (run lower upper read_pdf run_ocr decode_utf8 requests st) /\
  store_consistent (run lower upper read_pdf run_ocr decode_utf8 requests st).
Proof.
  unfold run. revert st.
  induction requests as [|r requests IH]; intros st Hok Hcons; [auto|].
  cbn [fold_left]. apply IH;
    destruct (handle_cases r st) as [-> | [(a & Ha & ->) | (id & x & Hid & ->)]];
    try assumption.
  - apply store_ok_store_analysis; assumption.
  - intros j h Hj. cbn [store_analysis chat_history documents_storage] in *.
    destruct (Hcons j h Hj) as [Hdoc Hne]. split; [|exact Hne].
    rewrite lookup_insert. case_decide; [eauto | exact Hdoc].
  - intros j h. cbn [chat_history documents_storage].
    rewrite lookup_insert. case_decide as Hj.
    + subst j. intros [= <-]. split; [exact Hid|].
      destruct (history_of st id); discriminate.
    + exact (Hcons j h).
Qed.

(** X17: no request removes anything: a stored document stays stored, and
    the history of every document only grows at its end, so that the history
    before a sequence of requests is a prefix of the history after it (no
    route deletes from or rewrites the two stores). *)
Theorem requests_only_append requests st id :
  (is_Some (documents_storage st !! id) ->
   is_Some (documents_storage
              (run lower upper read_pdf run_ocr decode_utf8 requests st) !! id)) /\
  history_of st id
  `prefix_of`
  history_of (run lower upper read_pdf run_ocr decode_utf8 requests st) id.
Proof.
  unfold run. revert st.
  induction requests as [|r requests IH]; intros st; [split; [auto | reflexivity]|].
  cbn [fold_left].
  destruct (IH (handle lower upper read_pdf run_ocr decode_utf8 r st)) as [IH1 IH2].
  assert (Hstep :
    (is_Some (documents_storage st !! id) ->
     is_Some (documents_storage
                (handle lower upper read_pdf run_ocr decode_utf8 r st) !! id)) /\
    history_of st id
    `prefix_of` history_of (handle lower upper read_pdf run_ocr decode_utf8 r st) id).
  { destruct (handle_cases r st) as [-> | [(a & Ha & ->) | (j & x & Hj & ->)]].
    - split; [auto | reflexivity].
    - split; [|reflexivity]. unfold store_analysis. cbn [documents_storage].
      intros H. rewrite lookup_insert. case_decide; [eauto | exact H].
    - split; [auto|]. unfold history_of at 2. cbn [chat_history].
      rewrite lookup_insert. case_decide as E.
      + subst j. simpl. eexists. reflexivity.
      + reflexivity. }
  destruct Hstep as [H1 H2]. split; [auto|]. etransitivity; eassumption.
Qed.
End Requests.

(** ** Concrete runs of the further properties *)

Lemma context_piece_of_penalty_text :
  let finding := risk_finding penalty_text (lower_sample penalty_text)
                   (U "штрафные санкции") (U "штраф") in
  finding ∈ extract_risks lower_sample penalty_text
            ++ extract_benefits lower_sample penalty_text
            ++ extract_unclear lower_sample penalty_text /\
  exists context,
    dict_get finding (U "context") = Some context /\
    piece_of context penalty_text /\ strip context = context.
Proof.
  intros finding.
  assert (Hin : finding ∈ extract_risks lower_sample penalty_text
                          ++ extract_benefits lower_sample penalty_text
                          ++ extract_unclear lower_sample penalty_text).
  { apply list_elem_of_In. vm_compute. left. reflexivity. }
  split; [exact Hin|].
  destruct (context_is_piece_of_text lower_sample penalty_text finding Hin)
    as (context & Hctx & Hpiece & _ & Hstrip).
  exists context. auto.
Defined.

Lemma second_keyword_reportable :
  U "пеня" ∈ [U "штраф"; U "пеня"; U "неустойка"; U "санкции"] /\
  lower_sample (U "ПЕНЯ") = U "пеня" /\
  filter (has_type (U "штрафные санкции")) (extract_risks lower_sample (U "ПЕНЯ"))
  = [risk_finding (U "ПЕНЯ") (U "пеня") (U "штрафные санкции") (U "пеня")].
Proof.
  assert (Hk : U "пеня" ∈ [U "штраф"; U "пеня"; U "неустойка"; U "санкции"]).
  { apply list_elem_of_In. right. left. reflexivity. }
  assert (Hlow : lower_sample (U "ПЕНЯ") = U "пеня") by (vm_compute; reflexivity).
  split; [exact Hk|]. split; [exact Hlow|].
  apply (every_keyword_reportable lower_sample (U "ПЕНЯ") (U "штрафные санкции")
           [U "штраф"; U "пеня"; U "неустойка"; U "санкции"] (U "пеня") Hk Hlow).
  apply list_elem_of_In. left. reflexivity.
Defined.

Lemma first_chat_creates_history :
  documents_storage sample_store !! U "doc-1" = Some sample_analysis /\
  exists answer st',
    chat_answer lower_sample sample_analysis (U "какие риски?") = Ok answer /\
    chat_with_document lower_sample
      {| ChatMessage.document_id := U "doc-1";
         ChatMessage.question := U "какие риски?" |}
      (U "2024-01-01T00:05:00") sample_store
    = (Ok {| ChatResponse.answer := answer;
             ChatResponse.document_id := U "doc-1" |}, st') /\
    history_of st' (U "doc-1")
    = [exchange_of (U "какие риски?") answer (U "2024-01-01T00:05:00")].
Proof.
  assert (Hdoc : documents_storage sample_store !! U "doc-1" = Some sample_analysis).
  { rewrite sample_store_lookup. reflexivity. }
  split; [exact Hdoc|].
  destruct (chat_answer lower_sample sample_analysis (U "какие риски?"))
    as [answer|e] eqn:Hans;
    [|exfalso; vm_compute in Hans; discriminate Hans].
  destruct (chat_records_exchange lower_sample
              {| ChatMessage.document_id := U "doc-1";
                 ChatMessage.question := U "какие риски?" |}
              (U "2024-01-01T00:05:00") sample_store sample_analysis answer
              Hdoc Hans) as (st' & Hchat & _ & Hhist & _).
  cbn [ChatMessage.document_id ChatMessage.question] in Hhist, Hchat.
  exists answer, st'. split; [reflexivity|]. split; [exact Hchat|].
  rewrite Hhist. reflexivity.
Defined.

Lemma risk_answer_of_sample :
  from_analyzer lower_sample upper_sample sample_analysis /\
  exists answer,
    risk_answer sample_analysis = Ok answer /\
    answer <> U "В документе не найдено серьезных рисков.".
Proof.
  split; [exact sample_analysis_from_analyzer|].
  destruct (risk_answer_agrees_with_rating lower_sample upper_sample
              sample_analysis sample_analysis_from_analyzer)
    as (answer & Hans & Hiff & _).
  exists answer. split; [exact Hans|]. intros H. apply Hiff in H.
  vm_compute in H. discriminate H.
Defined.

Lemma third_page_is_numbered_three :
  strip (U " Статья 1. Предмет договора ") <> [] /\
  exists text,
    extract_text_from_pdf (PdfPages sample_pages) = Ok text /\
    piece_of (U "--- Страница 3 ---") text.
Proof.
  assert (Hr : strip (U " Статья 1. Предмет договора ") <> [])
    by (vm_compute; discriminate).
  split; [exact Hr|].
  destruct (pdf_page_header_numbers [None; Some (U "   ")]
              (U " Статья 1. Предмет договора ") [] Hr)
    as (text & lead & Htext & _ & _ & (a & b & Hpiece)).
  exists text. split; [exact Htext|].
  exists a, (NL ++ lead ++ strip (U " Статья 1. Предмет договора ") ++ b).
  rewrite Hpiece.
  change (str_of_nat (length [None; Some (U "   ")] + 1)) with (U "3").
  f_equal. rewrite <- !app_assoc. reflexivity.
Defined.


Lemma plain_upload_stored :
  exists analysis st',
    api_analyze_document lower_sample upper_sample no_pdf no_ocr ascii_decode
      (U "text/plain") (U "contract.txt") plain_upload
      (U "doc-2") (U "2024-01-01T00:00:00") sample_store
    = (Ok analysis, st') /\
    get_document (U "doc-2") st' = Ok analysis.
Proof.
  assert (E : exists analysis st',
    api_analyze_document lower_sample upper_sample no_pdf no_ocr ascii_decode
      (U "text/plain") (U "contract.txt") plain_upload
      (U "doc-2") (U "2024-01-01T00:00:00") sample_store = (Ok analysis, st')).
  { unfold api_analyze_document.
    replace (check_upload (U "text/plain") plain_upload) with (Ok text_file)
      by (vm_compute; reflexivity).
    cbv beta iota.
    replace (extract_text no_pdf no_ocr ascii_decode text_file plain_upload)
      with (Ok (List.map Byte.to_N plain_upload)) by (vm_compute; reflexivity).
    cbv beta iota.
    replace (len (strip (List.map Byte.to_N plain_upload)) <? 50) with false
      by (vm_compute; reflexivity).
    destruct (analyze_document_returns lower_sample upper_sample
                (List.map Byte.to_N plain_upload) (U "contract.txt")
                (U "doc-2") (U "2024-01-01T00:00:00")) as [s ->].
    eauto. }
  destruct E as (a & st' & E). exists a, st'. split; [exact E|].
  apply (upload_success_is_stored lower_sample upper_sample
           no_pdf no_ocr ascii_decode _ _ _ _ _ _ _ _ E).
Defined.

Lemma sample_requests_keep_stores_consistent :
  store_ok lower_sample upper_sample empty_store /\
  store_consistent empty_store /\
  store_consistent
    (run lower_sample upper_sample no_pdf no_ocr ascii_decode
       sample_requests empty_store).
Proof.
  assert (Hok : store_ok lower_sample upper_sample empty_store)
    by apply store_ok_empty.
  assert (Hcons : store_consistent empty_store).
  { intros id h H. cbn in H. rewrite lookup_empty in H. discriminate H. }
  split; [exact Hok|]. split; [exact Hcons|].
  apply (requests_keep_stores_consistent lower_sample upper_sample
           no_pdf no_ocr ascii_decode sample_requests empty_store Hok Hcons).
Defined.
